(** * The image-to-3D HTTP service (hugging-face-server/app.py)

    A shallow embedding of the Flask endpoint layer: request validation,
    staging of the input image, the single remote generation call, the
    optional GLB-to-OBJ conversion, the download and the listing endpoints.

    Modelling choices.
    - A Python [str] is a [string]; every constant the code compares with is
      ASCII, and [lower] changes the letters A-Z only.
    - A finite Python [float] is the rational it denotes ([Qc]); only equality
      and order of floats are used by the code.
    - The filesystem is a finite map from path strings to nodes, files and
      directories; [os.listdir] yields the names of the paths directly under
      a directory, in the order the map enumerates them.  The upload and the
      output area are created when the module is imported.
    - The log of a request records, in order, what it asked of the outside
      world and which files it wrote.
    - Everything the service does not control (uuid4, the upload stream, the
      HTTP download, the remote model, the mesh library, the clock) is read
      from a per-request environment record.
    - A view function runs in a state-and-exception monad; [finally] and
      [except Exception] are combinators of that monad. *)

From Stdlib Require Import Ascii QArith Qcanon.
From stdpp Require Import gmap strings list fin_maps sorting.

Local Open Scope Z_scope.
Set Warnings "-register-all".

(** ** Python string methods *)

Module Str.

Definition lower_char (c : ascii) : ascii :=
  let n := nat_of_ascii c in
  if bool_decide (65 ≤ n ≤ 90)%nat then ascii_of_nat (n + 32) else c.

(** [s.lower()] *)
Fixpoint lower (s : string) : string :=
  match s with
  | "" => ""
  | String c r => String (lower_char c) (lower r)
  end.

(** [c in s] for a one-character [c] *)
Fixpoint contains (c : ascii) (s : string) : bool :=
  match s with
  | "" => false
  | String a r => if decide (a = c) then true else contains c r
  end.

(** [s.split(c)] for a one-character separator: never the empty list *)
Fixpoint split (c : ascii) (s : string) : list string :=
  match s with
  | "" => [""]
  | String a r =>
      if decide (a = c) then "" :: split c r
      else match split c r with
           | h :: t => String a h :: t
           | [] => [String a ""]
           end
  end.

(** [s.rsplit(c, 1)]: at most one split, at the last separator *)
Fixpoint rsplit1 (c : ascii) (s : string) : list string :=
  match s with
  | "" => [""]
  | String a r =>
      match rsplit1 c r with
      | [h; t] => [String a h; t]
      | _ => if decide (a = c) then [""; r] else [String a r]
      end
  end.

(** [s[:n]] *)
Fixpoint take (n : nat) (s : string) : string :=
  match n, s with
  | S k, String a r => String a (take k r)
  | _, _ => ""
  end.

(** [s[n:]] *)
Fixpoint drop (n : nat) (s : string) : string :=
  match n, s with
  | S k, String _ r => drop k r
  | _, _ => s
  end.

(** [s.startswith(p)] *)
Fixpoint startswith (p s : string) : bool :=
  match p, s with
  | "", _ => true
  | String a p', String b s' => if decide (a = b) then startswith p' s' else false
  | _, "" => false
  end.

(** [s.endswith(p)]: some suffix of [s] is [p] *)
Fixpoint endswith (p s : string) : bool :=
  bool_decide (s = p)
  || match s with "" => false | String _ r => endswith p r end.

(** [s.replace(old, new)] for a non-empty [old]: every occurrence, scanning
    from the left without overlap.  [skip] counts the characters of an
    occurrence still to be passed over. *)
Fixpoint replace_go (old new : string) (skip : nat) (s : string) : string :=
  match s with
  | "" => ""
  | String a r =>
      match skip with
      | S k => replace_go old new k r
      | O =>
          if startswith old s
          then new +:+ replace_go old new (String.length old - 1) r
          else String a (replace_go old new 0 r)
      end
  end.
Definition replace (old new s : string) : string := replace_go old new 0 s.

(** [l[-1]] and [l[0]] on the never-empty results of [split] *)
Definition last (l : list string) : string := List.last l "".
Definition first (l : list string) : string := List.hd "" l.

End Str.

(** ** os.path (POSIX) *)

Module Path.

(** [os.path.join(a, b)] *)
Definition join (a b : string) : string :=
  if Str.startswith "/" b then b
  else if bool_decide (a = "") || Str.endswith "/" a then a +:+ b
  else a +:+ "/" +:+ b.

(** [os.path.basename(p)]: what follows the last slash *)
Definition basename (p : string) : string := Str.last (Str.split "/" p).

(** [os.path.splitext(p)]: the extension starts at the last dot of the last
    component, unless only dots precede it there. *)
Fixpoint all_dots (s : string) : bool :=
  match s with
  | "" => true
  | String a r => if decide (a = "."%char) then all_dots r else false
  end.

Definition splitext (p : string) : string * string :=
  let name := basename p in
  let dir := Str.take (String.length p - String.length name) p in
  match Str.rsplit1 "." name with
  | [root; ext] =>
      if all_dots root then (p, "")
      else (dir +:+ root, "." +:+ ext)
  | _ => (p, "")
  end.

End Path.

(** ** Python values, exceptions, the filesystem *)

Inductive pyval :=
  | PNone
  | PBool (b : bool)
  | PInt (n : Z)
  | PFloat (x : Qc)
  | PStr (s : string)
  | PList (l : list pyval)
  | PDict (d : list (string * pyval)).

(** [Exception] is what [except Exception] catches; [BaseException] stands for
    the exceptions outside that class (KeyboardInterrupt, SystemExit). *)
Inductive exn :=
  | Exception (cls msg : string)
  | BaseException (cls msg : string).

Inductive res (A : Type) :=
  | Ok (a : A)
  | Raise (e : exn).
Arguments Ok {A} a.
Arguments Raise {A} e.

Inductive node :=
  | File (ctime : Qc)
  | Dir (ctime : Qc).

Definition node_ctime (n : node) : Qc :=
  match n with File t => t | Dir t => t end.

Definition is_dir (n : option node) : bool :=
  match n with Some (Dir _) => true | _ => false end.
Definition is_file (n : option node) : bool :=
  match n with Some (File _) => true | _ => false end.

(** The name under which path [k] is listed in directory [p], if it is a
    direct child of [p]. *)
Definition child_name (p k : string) : option string :=
  let n := Path.basename k in
  if bool_decide (n ≠ "" ∧ Path.join p n = k) then Some n else None.

(** ** What a request sees of the outside world *)

Record predict_args := {
  steps : pyval;
  guidance_scale : pyval;
  seed : pyval;
  octree_resolution : pyval;
  check_box_rembg : pyval;
  num_chunks : pyval;
  randomize_seed : pyval;
}.

Inductive event :=
  | RemoteCall (image_path : string) (args : predict_args)
  | HttpGet (url : pyval)
  | Conversion (glb_path output_dir : string)
  | Wrote (path : string).

Record env := {
  uuid4 : string;                  (* str(uuid.uuid4()) *)
  clock : Qc;                      (* ctime given to what the request writes *)
  file_save : option exn;          (* FileStorage.save failing, nothing written *)
  requests_get : option exn;       (* requests.get(..) and raise_for_status() *)
  client_predict : res string;     (* Client(..).predict(..)[0] *)
  trimesh_load : option exn;       (* trimesh.load(glb_path, force="scene") *)
  scene_export : res (list string) (* scene.export(obj_path): companion files *)
}.

(** The text of [str(uuid.uuid4())]: 36 characters, lower-case hexadecimal
    digits and four dashes. *)
Definition is_hex (c : ascii) : bool :=
  let n := nat_of_ascii c in
  bool_decide (48 ≤ n ≤ 57)%nat || bool_decide (97 ≤ n ≤ 102)%nat.

Fixpoint uuid_shape (i : nat) (s : string) : bool :=
  match s with
  | "" => bool_decide (i = 36%nat)
  | String c r =>
      (if bool_decide (i ∈ [8; 13; 18; 23]%nat)
       then bool_decide (c = "-"%char) else is_hex c)
      && uuid_shape (S i) r
  end.
Definition is_uuid (s : string) : bool := uuid_shape 0 s.

(** ** The monad of a view function *)

Record state := {
  fs : gmap string node;
  log : list event;
  image_path : option string  (* the local variable of generate_from_url *)
}.

Definition M (A : Type) : Type := state → res A * state.

Global Instance M_ret : MRet M := λ A a s, (Ok a, s).
Global Instance M_bind : MBind M := λ A B k m s,
  match m s with
  | (Ok a, s') => k a s'
  | (Raise e, s') => (Raise e, s')
  end.
Definition raise {A} (e : exn) : M A := λ s, (Raise e, s).

(** [try: m except Exception as e: h e] *)
Definition try_except {A} (m : M A) (h : string → M A) : M A :=
  λ s, match m s with
       | (Raise (Exception _ msg), s') => h msg s'
       | r => r
       end.

(** [try: m finally: c]: [c] always runs; when it raises, its exception
    replaces the outcome of [m]. *)
Definition finally {A} (m : M A) (c : M unit) : M A :=
  λ s, let '(r, s1) := m s in
       match c s1 with
       | (Ok _, s2) => (r, s2)
       | (Raise e, s2) => (Raise e, s2)
       end.

Definition lift {A} (r : res A) : M A := λ s, (r, s).
Definition lift_err (o : option exn) : M unit :=
  match o with Some e => raise e | None => mret tt end.

Definition get_fs : M (gmap string node) := λ s, (Ok (fs s), s).
Definition set_fs (m : gmap string node) : M unit :=
  λ s, (Ok tt, {| fs := m; log := log s; image_path := image_path s |}).
Definition emit (ev : event) : M unit :=
  λ s, (Ok tt, {| fs := fs s; log := log s ++ [ev]; image_path := image_path s |}).
Definition assign_image_path (p : string) : M unit :=
  λ s, (Ok tt, {| fs := fs s; log := log s; image_path := Some p |}).
(** Reading the local before any assignment is an [UnboundLocalError]. *)
Definition read_image_path : M string :=
  λ s, match image_path s with
       | Some p => (Ok p, s)
       | None => (Raise (Exception "UnboundLocalError"
                   "cannot access local variable 'image_path'"), s)
       end.

(** ** Filesystem calls *)

(** Paths are looked up as they are written: the components [.] and [..]
    are not resolved, so a path stands for itself only when it has none. *)
Definition os_path_exists (p : string) : M bool :=
  m ← get_fs ; mret (bool_decide (is_Some (m !! p))).

(** [open(p, "wb")] followed by a write, as [FileStorage.save],
    [shutil.copyfile] and the exporter do. *)
Definition write_file (p : string) (t : Qc) : M unit :=
  m ← get_fs ;
  if is_dir (m !! p) then raise (Exception "IsADirectoryError" p)
  else set_fs (<[p := File t]> m) ;; emit (Wrote p).

(** A file the remote client leaves at [p], its own temporary path. *)
Definition remote_store (p : string) (t : Qc) : M unit :=
  m ← get_fs ;
  if is_dir (m !! p) then mret tt else set_fs (<[p := File t]> m).

(** [os.makedirs(p, exist_ok=True)] *)
Definition os_makedirs (p : string) (t : Qc) : M unit :=
  m ← get_fs ;
  match m !! p with
  | Some (Dir _) => mret tt
  | Some (File _) => raise (Exception "FileExistsError" p)
  | None => set_fs (<[p := Dir t]> m)
  end.

(** [os.remove(p)] *)
Definition os_remove (p : string) : M unit :=
  m ← get_fs ;
  match m !! p with
  | Some (File _) => set_fs (delete p m)
  | Some (Dir _) => raise (Exception "IsADirectoryError" p)
  | None => raise (Exception "FileNotFoundError" p)
  end.

(** [os.listdir(p)]: the names of the paths directly under [p], in the
    order the map enumerates them. *)
Definition os_listdir (p : string) : M (list string) :=
  m ← get_fs ;
  match m !! p with
  | Some (Dir _) => mret (omap (child_name p) (map_to_list m).*1)
  | Some (File _) => raise (Exception "NotADirectoryError" p)
  | None => raise (Exception "FileNotFoundError" p)
  end.

(** [os.path.getctime(p)] *)
Definition os_path_getctime (p : string) : M Qc :=
  m ← get_fs ;
  match m !! p with
  | Some n => mret (node_ctime n)
  | None => raise (Exception "FileNotFoundError" p)
  end.

(** [shutil.copy(src, dst)]: into the directory when [dst] is one. *)
Definition shutil_copy (src dst : string) (t : Qc) : M unit :=
  m ← get_fs ;
  let target :=
    if is_dir (m !! dst) then Path.join dst (Path.basename src) else dst in
  if negb (is_file (m !! src)) then raise (Exception "FileNotFoundError" src)
  else if bool_decide (target = src) then raise (Exception "SameFileError" src)
  else write_file target t.

(** ** Requests and responses *)

Record file_storage := { filename : string }.

Record upload_request := {
  files : gmap string file_storage;  (* request.files *)
  form : gmap string string          (* request.form *)
}.

Inductive body :=
  | Json (obj : gmap string pyval)
  | Attachment (path download_name : string).

Record response := { status : nat; payload : body }.

Definition jsonify (d : gmap string pyval) (code : nat) : response :=
  {| status := code; payload := Json d |}.

(** What Flask sends for the outcome of a view function: an exception that
    escapes the view becomes the framework's own 500 page, which is not a
    JSON object. *)
Inductive http :=
  | Sent (r : response)
  | InternalServerError
  | Aborted.

Definition flask (r : res response) : http :=
  match r with
  | Ok resp => Sent resp
  | Raise (Exception _ _) => InternalServerError
  | Raise (BaseException _ _) => Aborted
  end.

Definition http_status (h : http) : option nat :=
  match h with
  | Sent r => Some (status r)
  | InternalServerError => Some 500%nat
  | Aborted => None
  end.

Definition json_of (h : http) : option (gmap string pyval) :=
  match h with
  | Sent {| payload := Json d |} => Some d
  | _ => None
  end.

(** An entry of the listing, and its JSON form. *)
Record model := { job_id : string; glb_url : string; created_at : Qc }.

Definition model_json (x : model) : pyval :=
  PDict [("job_id", PStr (job_id x)); ("glb_url", PStr (glb_url x));
         ("created_at", PFloat (created_at x))].

(** [sorted(l, key=.., reverse=True)]: descending, and stable. *)
Fixpoint insert_desc {A} (key : A → Qc) (x : A) (l : list A) : list A :=
  match l with
  | [] => [x]
  | y :: l' =>
      if bool_decide (key x < key y)%Qc then y :: insert_desc key x l'
      else x :: l
  end.

Definition sorted_desc {A} (key : A → Qc) (l : list A) : list A :=
  foldr (insert_desc key) [] l.

Definition initial (m : gmap string node) : state :=
  {| fs := m; log := []; image_path := None |}.

(** ** A small world to run the service in *)

(** A decimal reading of [int(s)], enough for the digits-only strings of the
    runs below. *)
Fixpoint digits_go (acc : Z) (s : string) : option Z :=
  match s with
  | "" => Some acc
  | String c r =>
      match Ascii.is_nat c with
      | Some n => digits_go (10 * acc + Z.of_nat n) r
      | None => None
      end
  end.
Definition int_of_digits (s : string) : option Z :=
  match s with "" => None | _ => digits_go 0 s end.
Definition float_of_digits (s : string) : option Qc :=
  (λ n, Q2Qc (inject_Z n)) <$> int_of_digits s.
(** [secure_filename] leaves a plain name as it is. *)
Definition plain_filename (s : string) : string := s.

Definition sample_job : string := "123e4567-e89b-42d3-a456-426614174000".

Definition sample_env : env :=
  {| uuid4 := sample_job; clock := Q2Qc 7; file_save := None;
     requests_get := None; client_predict := Ok "/tmp/gradio/out.glb";
     trimesh_load := None; scene_export := Ok ["material.mtl"] |}.

(** The same world with the image host unreachable. *)
Definition offline_env : env :=
  {| uuid4 := sample_job; clock := Q2Qc 7; file_save := None;
     requests_get := Some (Exception "ConnectionError" "Failed to resolve host");
     client_predict := Ok "/tmp/gradio/out.glb";
     trimesh_load := None; scene_export := Ok ["material.mtl"] |}.

Definition sample_fs : gmap string node :=
  {[ "/srv/uploads" := Dir (Q2Qc 1); "/srv/output" := Dir (Q2Qc 1) ]}.

(** Two finished jobs, the second one the newer. *)
Definition listing_fs : gmap string node :=
  {[ "/srv/uploads" := Dir (Q2Qc 1); "/srv/output" := Dir (Q2Qc 1);
     "/srv/output/aaaa.glb" := File (Q2Qc 3);
     "/srv/output/bbbb.glb" := File (Q2Qc 5) ]}.

Definition sample_upload : upload_request :=
  {| files := {[ "file" := {| filename := "cat.PNG" |} ]};
     form := {[ "output_format" := "OBJ"; "steps" := "50";
                "octree_resolution" := "512" ]} |}.

Definition stl_upload : upload_request :=
  {| files := {[ "file" := {| filename := "cat.png" |} ]};
     form := {[ "output_format" := "stl" ]} |}.

Definition sample_body : gmap string pyval :=
  {[ "image_url" := PStr "http://img.example/cat.webp?size=2";
     "steps" := PStr "50" ]}.

Definition sample_args : predict_args :=
  {| steps := PInt 50; guidance_scale := PFloat (Q2Qc (inject_Z 5));
     seed := PInt 1234; octree_resolution := PInt 256;
     check_box_rembg := PBool true; num_chunks := PInt 8000;
     randomize_seed := PBool true |}.

(** An upload whose [steps] is not a number. *)
Definition bad_steps_upload : upload_request :=
  {| files := {[ "file" := {| filename := "cat.png" |} ]};
     form := {[ "steps" := "abc" ]} |}.

(** An upload that sets no parameter, and the parameters it gets. *)
Definition plain_upload : upload_request :=
  {| files := {[ "file" := {| filename := "cat.png" |} ]}; form := ∅ |}.

Definition default_params : gmap string pyval :=
  {[ "steps" := PInt 30; "guidance_scale" := PFloat (Q2Qc (inject_Z 5));
     "seed" := PInt 1234; "remove_background" := PBool true;
     "randomize_seed" := PBool true ]}.

(** The sample world with the remote model overloaded. *)
Definition overloaded_env : env :=
  {| uuid4 := sample_job; clock := Q2Qc 7; file_save := None;
     requests_get := None;
     client_predict := Raise (Exception "AppError" "The Space is overloaded");
     trimesh_load := None; scene_export := Ok ["material.mtl"] |}.

(** ** The service *)

Section Service.

(** [os.path.dirname(__file__)] *)
Variable app_dir : string.
(** [int(s)] and [float(s)] on a string; [None] is their [ValueError]. *)
Variable py_int : string → option Z.
Variable py_float : string → option Qc.
(** [werkzeug.utils.secure_filename] *)
Variable secure_filename : string → string.

Definition UPLOAD_FOLDER : string := Path.join app_dir "uploads".
Definition OUTPUT_FOLDER : string := Path.join app_dir "output".
Definition ALLOWED_EXTENSIONS : gset string := {[ "png"; "jpg"; "jpeg"; "webp" ]}.

Definition allowed_file (name : string) : bool :=
  Str.contains "." name
  && bool_decide (Str.lower (default "" (Str.rsplit1 "." name !! 1%nat))
                  ∈ ALLOWED_EXTENSIONS).

(** The keyword arguments of [client.predict], read off the parameter bag. *)
Definition predict_args_of (params : gmap string pyval) : predict_args :=
  {| steps := default (PInt 30) (params !! "steps");
     guidance_scale := default (PInt 5) (params !! "guidance_scale");
     seed := default (PInt 1234) (params !! "seed");
     octree_resolution := default (PInt 256) (params !! "octree_resolution");
     check_box_rembg := default (PBool true) (params !! "remove_background");
     num_chunks := default (PInt 8000) (params !! "num_chunks");
     randomize_seed := default (PBool true) (params !! "randomize_seed") |}.

Definition fetch_3d_from_image (image : string) (params : gmap string pyval)
    (e : env) : M string :=
  emit (RemoteCall image (predict_args_of params)) ;;
  glb ← lift (client_predict e) ;
  remote_store glb (clock e) ;;
  mret glb.

Fixpoint write_files (dir : string) (names : list string) (t : Qc) : M unit :=
  match names with
  | [] => mret tt
  | n :: ns => write_file (Path.join dir n) t ;; write_files dir ns t
  end.

Definition convert_glb_to_obj (glb_path output_dir : string) (e : env) : M string :=
  emit (Conversion glb_path output_dir) ;;
  let base_name := (Path.splitext (Path.basename glb_path)).1 in
  let file_output_dir := Path.join output_dir base_name in
  os_makedirs file_output_dir (clock e) ;;
  m ← get_fs ;
  (if is_file (m !! glb_path) then lift_err (trimesh_load e)
   else raise (Exception "ValueError" glb_path)) ;;
  let obj_path := Path.join file_output_dir (base_name +:+ ".obj") in
  companions ← lift (scene_export e) ;
  write_file obj_path (clock e) ;;
  write_files file_output_dir companions (clock e) ;;
  mret obj_path.

(** [int(request.form.get(key, d))] with an integer default [d] *)
Definition form_int (f : gmap string string) (key : string) (d : Z) : M pyval :=
  match f !! key with
  | Some s =>
      match py_int s with
      | Some n => mret (PInt n)
      | None => raise (Exception "ValueError" s)
      end
  | None => mret (PInt d)
  end.

(** [float(request.form.get(key, d))] with an integer default [d] *)
Definition form_float (f : gmap string string) (key : string) (d : Z) : M pyval :=
  match f !! key with
  | Some s =>
      match py_float s with
      | Some x => mret (PFloat x)
      | None => raise (Exception "ValueError" s)
      end
  | None => mret (PFloat (Q2Qc (inject_Z d)))
  end.

(** [request.form.get(key, "true").lower() == "true"] *)
Definition form_flag (f : gmap string string) (key : string) : pyval :=
  PBool (bool_decide (Str.lower (default "true" (f !! key)) = "true")).

Definition download_url (job fmt : string) : string :=
  "/api/download/" +:+ job +:+ "/" +:+ fmt.

(** The part of both generate views from the remote call to the response. *)
Definition generate_and_respond (image : string) (params : gmap string pyval)
    (output_format job : string) (e : env) : M response :=
  glb_path ← fetch_3d_from_image image params e ;
  let output_glb_path := Path.join OUTPUT_FOLDER (job +:+ ".glb") in
  shutil_copy glb_path output_glb_path (clock e) ;;
  let response : gmap string pyval :=
    {[ "job_id" := PStr job; "status" := PStr "completed";
       "glb_url" := PStr (download_url job "glb") ]} in
  if bool_decide (output_format = "obj") then
    _ ← convert_glb_to_obj output_glb_path OUTPUT_FOLDER e ;
    mret (jsonify (<["obj_url" := PStr (download_url job "obj")]> response) 200)
  else mret (jsonify response 200).

Definition upload_params (f : gmap string string) : M (gmap string pyval) :=
  st ← form_int f "steps" 30 ;
  gs ← form_float f "guidance_scale" 5 ;
  sd ← form_int f "seed" 1234 ;
  mret ({[ "steps" := st; "guidance_scale" := gs; "seed" := sd;
           "remove_background" := form_flag f "remove_background";
           "randomize_seed" := form_flag f "randomize_seed" ]} : gmap string pyval).

(** The body of [generate_3d_model] once the upload has been accepted. *)
Definition generate_3d_model_job (file : file_storage) (req : upload_request)
    (e : env) : M response :=
  let job := uuid4 e in
  let name := secure_filename (filename file) in
  let unique_filename := job +:+ "_" +:+ name in
  let image := Path.join UPLOAD_FOLDER unique_filename in
  (* file.save(image_path) *)
  lift_err (file_save e) ;;
  write_file image (clock e) ;;
  finally
    (try_except
       (params ← upload_params (form req) ;
        let output_format := Str.lower (default "glb" (form req !! "output_format")) in
        generate_and_respond image params output_format job e)
       (λ msg, mret (jsonify
          {[ "error" := PStr msg;
             "message" := PStr "Generation failed. The Hugging Face Space may be overloaded.";
             "fallback_url" := PStr "https://huggingface.co/spaces/tencent/Hunyuan3D-2.1" ]}
          500)))
    (ex ← os_path_exists image ;
     if ex : bool then os_remove image else mret tt).

Definition generate_3d_model (req : upload_request) (e : env) : M response :=
  match files req !! "file" with
  | None => mret (jsonify {[ "error" := PStr "No file provided" ]} 400)
  | Some file =>
      if bool_decide (filename file = "")
      then mret (jsonify {[ "error" := PStr "No file selected" ]} 400)
      else if negb (allowed_file (filename file))
      then mret (jsonify {[ "error" :=
        PStr "File type not allowed. Allowed: {'png', 'jpg', 'jpeg', 'webp'}" ]} 400)
      else generate_3d_model_job file req e
  end.

(** [v.lower()] is an [AttributeError] unless [v] is a string. *)
Definition py_lower (v : pyval) : M string :=
  match v with
  | PStr s => mret (Str.lower s)
  | _ => raise (Exception "AttributeError" "object has no attribute 'lower'")
  end.

(** [image_url.split(".")[-1].split("?")[0][:4]] *)
Definition url_ext (image_url : string) : string :=
  Str.take 4 (Str.first (Str.split "?" (Str.last (Str.split "." image_url)))).

Definition staged_ext (image_url : string) : string :=
  let ext := url_ext image_url in
  if bool_decide (ext ∈ ALLOWED_EXTENSIONS) then ext else "jpg".

(** [requests.get(image_url, timeout=30)] and [raise_for_status()]: anything
    but a string has no URL scheme. *)
Definition download_image (image_url : pyval) (e : env) : M string :=
  emit (HttpGet image_url) ;;
  match image_url with
  | PStr u => lift_err (requests_get e) ;; mret u
  | _ => raise (Exception "MissingSchema" "Invalid URL")
  end.

Definition url_params (data : gmap string pyval) : gmap string pyval :=
  {[ "steps" := default (PInt 30) (data !! "steps");
     "guidance_scale" := default (PInt 5) (data !! "guidance_scale");
     "seed" := default (PInt 1234) (data !! "seed");
     "remove_background" := default (PBool true) (data !! "remove_background");
     "randomize_seed" := default (PBool true) (data !! "randomize_seed") ]}.

Definition image_url_required : response :=
  jsonify {[ "error" := PStr "image_url is required" ]} 400.

(** [data] is what [request.get_json()] returned, for a body that is the
    JSON [null] ([None]) or a JSON object; an empty object has no
    [image_url] either.  A request on which [get_json] itself aborts (no
    JSON content type, malformed JSON) does not reach the code below, and a
    body of another JSON type is not covered. *)
Definition generate_from_url (data : option (gmap string pyval)) (e : env)
    : M response :=
  match data with
  | None => mret image_url_required
  | Some d =>
      match d !! "image_url" with
      | None => mret image_url_required
      | Some image_url =>
          let job := uuid4 e in
          finally
            (try_except
               (u ← download_image image_url e ;
                let image := Path.join UPLOAD_FOLDER (job +:+ "." +:+ staged_ext u) in
                assign_image_path image ;;
                write_file image (clock e) ;;
                let params := url_params d in
                output_format ←
                  py_lower (default (PStr "glb") (d !! "output_format")) ;
                generate_and_respond image params output_format job e)
               (λ msg, mret (jsonify
                  {[ "error" := PStr msg; "message" := PStr "Generation failed" ]}
                  500)))
            (p ← read_image_path ;
             ex ← os_path_exists p ;
             if ex : bool then os_remove p else mret tt)
      end
  end.

(** [send_file(path, as_attachment=True, download_name=name)] *)
Definition send_file (path name : string) : M response :=
  m ← get_fs ;
  match m !! path with
  | Some (File _) => mret {| status := 200; payload := Attachment path name |}
  | Some (Dir _) => raise (Exception "IsADirectoryError" path)
  | None => raise (Exception "FileNotFoundError" path)
  end.

Definition not_found : response := jsonify {[ "error" := PStr "File not found" ]} 404.

Definition download_model (job fmt : string) : M response :=
  if bool_decide (fmt = "glb") then
    let file_path := Path.join OUTPUT_FOLDER (job +:+ ".glb") in
    ex ← os_path_exists file_path ;
    if ex : bool then send_file file_path (job +:+ ".glb") else mret not_found
  else if bool_decide (fmt = "obj") then
    let obj_dir := Path.join OUTPUT_FOLDER job in
    ex ← os_path_exists obj_dir ;
    if ex : bool then
      es ← os_listdir obj_dir ;
      match List.find (Str.endswith ".obj") es with
      | Some f => send_file (Path.join obj_dir f) (job +:+ ".obj")
      | None => mret not_found
      end
    else mret not_found
  else mret not_found.

(** The loop of [list_models] over the names of the output area. *)
Fixpoint collect_models (names : list string) : M (list model) :=
  match names with
  | [] => mret []
  | f :: rest =>
      if Str.endswith ".glb" f then
        let job := Str.replace ".glb" "" f in
        t ← os_path_getctime (Path.join OUTPUT_FOLDER f) ;
        ms ← collect_models rest ;
        mret ({| job_id := job; glb_url := download_url job "glb";
                 created_at := t |} :: ms)
      else collect_models rest
  end.

Definition list_models : M response :=
  names ← os_listdir OUTPUT_FOLDER ;
  models ← collect_models names ;
  mret (jsonify
    {[ "models" := PList (model_json <$> sorted_desc created_at models);
       "total" := PInt (Z.of_nat (length models)) ]} 200).

(** [GET /health] *)
Definition health_check : M response :=
  mret (jsonify
    {[ "status" := PStr "healthy";
       "service" := PStr "hugging-face-3d-server";
       "model" := PStr "tencent/Hunyuan3D-2.1" ]} 200).

(** [GET /] *)
Definition index : M response :=
  mret (jsonify
    {[ "name" := PStr "Hugging Face 3D Generation Server";
       "description" := PStr "Convert images to 3D models using Hunyuan3D-2.1";
       "version" := PStr "1.0.0";
       "endpoints" := PDict
         [("GET /health", PStr "Health check");
          ("POST /api/generate", PStr "Generate 3D model from uploaded image");
          ("POST /api/generate/url", PStr "Generate 3D model from image URL");
          ("GET /api/download/<job_id>/<format>",
           PStr "Download generated model (glb/obj)");
          ("GET /api/models", PStr "List all generated models")];
       "model" := PDict
         [("name", PStr "Hunyuan3D-2.1");
          ("provider", PStr "Tencent");
          ("huggingface_space",
           PStr "https://huggingface.co/spaces/tencent/Hunyuan3D-2.1")] ]} 200).

(** The URL map for GET, from the [@app.route] decorators: the view a
    request path is dispatched to, with the variable parts of the rule as
    its arguments.  [<job_id>] and [<format>] use the default converter,
    which takes one or more characters other than [/]; on [None] no view
    is called and the framework answers by itself. *)
Definition route_get (path : string) : option (M response) :=
  if bool_decide (path = "/health") then Some health_check
  else if bool_decide (path = "/api/models") then Some list_models
  else if bool_decide (path = "/") then Some index
  else if Str.startswith "/api/download/" path then
    match Str.split "/" (Str.drop 14 path) with
    | [job_id; format] =>
        if bool_decide (job_id ≠ "" ∧ format ≠ "")
        then Some (download_model job_id format) else None
    | _ => None
    end
  else None.

(** The two generate routes, [POST /api/generate] and
    [POST /api/generate/url]. *)
Inductive request :=
  | PostGenerate (req : upload_request)
  | PostGenerateUrl (data : option (gmap string pyval)).

Definition generate (r : request) (e : env) : M response :=
  match r with
  | PostGenerate req => generate_3d_model req e
  | PostGenerateUrl data => generate_from_url data e
  end.

(** The [output_format] of a request after [.lower()], when it has one. *)
Definition requested_format (r : request) : option string :=
  match r with
  | PostGenerate req => Some (Str.lower (default "glb" (form req !! "output_format")))
  | PostGenerateUrl data =>
      match default (PStr "glb") (default ∅ data !! "output_format") with
      | PStr v => Some (Str.lower v)
      | _ => None
      end
  end.

(** The same request asking for [fmt]. *)
Definition with_format (fmt : string) (r : request) : request :=
  match r with
  | PostGenerate req =>
      PostGenerate {| files := files req;
                      form := <["output_format" := fmt]> (form req) |}
  | PostGenerateUrl data =>
      PostGenerateUrl ((λ d, <["output_format" := PStr fmt]> d) <$> data)
  end.

(** Where a request stages its input image, when it gets that far: the
    upload was accepted and saved, or the image was downloaded, and the
    staging path is free for a file. *)
Definition staged_at (r : request) (e : env) (m : gmap string node) : option string :=
  match r with
  | PostGenerate req =>
      file ← files req !! "file" ;
      let image := Path.join UPLOAD_FOLDER
                     (uuid4 e +:+ "_" +:+ secure_filename (filename file)) in
      if negb (bool_decide (filename file = "")) && allowed_file (filename file)
         && bool_decide (file_save e = None) && negb (is_dir (m !! image))
      then Some image else None
  | PostGenerateUrl data =>
      match data ≫= (λ d, d !! "image_url") with
      | Some (PStr u) =>
          let image := Path.join UPLOAD_FOLDER (uuid4 e +:+ "." +:+ staged_ext u) in
          if bool_decide (requests_get e = None) && negb (is_dir (m !! image))
          then Some image else None
      | _ => None
      end
  end.

(** *** The upload validation as the specification words it *)

(** The text after the last dot, lowercased; none without a dot. *)
Definition spec_extension (name : string) : option string :=
  match Str.split "." name with
  | [] | [_] => None
  | parts => Some (Str.lower (Str.last parts))
  end.

Definition spec_rejects (req : upload_request) : bool :=
  match files req !! "file" with
  | None => true
  | Some file =>
      bool_decide (filename file = "")
      || match spec_extension (filename file) with
         | Some x => negb (bool_decide (x ∈ ALLOWED_EXTENSIONS))
         | None => true
         end
  end.

(** *** The listing as the specification words it *)

(** The names in the output area that end in [.glb]. *)
Definition output_glbs (m : gmap string node) : list string :=
  List.filter (Str.endswith ".glb")
    (omap (child_name OUTPUT_FOLDER) (map_to_list m).*1).

(** The entry of one of them: job id from the name, creation time from
    the filesystem. *)
Definition model_of (m : gmap string node) (f : string) : model :=
  {| job_id := Str.replace ".glb" "" f;
     glb_url := download_url (Str.replace ".glb" "" f) "glb";
     created_at := from_option node_ctime (Q2Qc 0) (m !! Path.join OUTPUT_FOLDER f) |}.

(** An entry of the listing as the specification has it: the job id, the
    URL of the GLB download, the creation time. *)
Definition listing_entry (job : string) (created : Qc) : pyval :=
  PDict [("job_id", PStr job);
         ("glb_url", PStr ("/api/download/" +:+ job +:+ "/glb"));
         ("created_at", PFloat created)].

(** *** The parameters as the specification words them *)

(** An integer field: the form value coerced by [int], or the default. *)
Definition int_field (f : gmap string string) (key : string) (d n : Z) : Prop :=
  match f !! key with Some v => py_int v = Some n | None => n = d end.

(** A float field: the form value coerced by [float], or the default. *)
Definition float_field (f : gmap string string) (key : string) (d : Z) (x : Qc)
    : Prop :=
  match f !! key with Some v => py_float v = Some x | None => x = Q2Qc (inject_Z d) end.

(** A boolean field: true iff the lowercased form value is "true"; true
    when the field is missing. *)
Definition flag_field (f : gmap string string) (key : string) : bool :=
  match f !! key with
  | Some v => bool_decide (Str.lower v = "true")
  | None => true
  end.

(** What reaches the remote model: coerced on the upload route, as the
    JSON body has it on the URL route, with the same defaults. *)
Definition forwarded (r : request) (a : predict_args) : Prop :=
  match r with
  | PostGenerate req =>
      let f := form req in
      (∃ n, steps a = PInt n ∧ int_field f "steps" 30 n)
      ∧ (∃ x, guidance_scale a = PFloat x ∧ float_field f "guidance_scale" 5 x)
      ∧ (∃ n, seed a = PInt n ∧ int_field f "seed" 1234 n)
      ∧ check_box_rembg a = PBool (flag_field f "remove_background")
      ∧ randomize_seed a = PBool (flag_field f "randomize_seed")
  | PostGenerateUrl data =>
      let d := default ∅ data in
      steps a = default (PInt 30) (d !! "steps")
      ∧ guidance_scale a = default (PInt 5) (d !! "guidance_scale")
      ∧ seed a = default (PInt 1234) (d !! "seed")
      ∧ check_box_rembg a = default (PBool true) (d !! "remove_background")
      ∧ randomize_seed a = default (PBool true) (d !! "randomize_seed")
  end.

Definition forwarded_event (r : request) (ev : event) : Prop :=
  match ev with RemoteCall _ a => forwarded r a | _ => True end.

(** The parameter bag [upload_params] builds from a form. *)
Definition params_shape (f : gmap string string) (p : gmap string pyval) : Prop :=
  ∃ n x k,
    p = {[ "steps" := PInt n; "guidance_scale" := PFloat x; "seed" := PInt k;
           "remove_background" := form_flag f "remove_background";
           "randomize_seed" := form_flag f "randomize_seed" ]}
    ∧ int_field f "steps" 30 n ∧ float_field f "guidance_scale" 5 x
    ∧ int_field f "seed" 1234 k.

(** *** Paths of the two areas *)

(** [join(a, b) = join_prefix a ++ b] for a relative [b]. *)
Definition join_prefix (a : string) : string :=
  if bool_decide (a = "") || Str.endswith "/" a then a else a +:+ "/".

Definition in_uploads (p : string) : Prop :=
  ∃ z, p = join_prefix app_dir +:+ "uploads/" +:+ z.
Definition in_output (p : string) : Prop :=
  ∃ z, p = join_prefix app_dir +:+ "output/" +:+ z.

(** *** Answers and outcomes *)

Definition no_obj_url (r : response) : Prop :=
  ∀ d, payload r = Json d → d !! "obj_url" = None.

Definition obj_response (job : string) : gmap string pyval :=
  <["obj_url" := PStr (download_url job "obj")]>
    {[ "job_id" := PStr job; "status" := PStr "completed";
       "glb_url" := PStr (download_url job "glb") ]}.

Definition unbound_image_path : exn :=
  Exception "UnboundLocalError" "cannot access local variable 'image_path'".

(** The upload route forwards the form field [key] to the remote call, read
    there by [get]. *)
Definition upload_exposes (key : string) (get : predict_args → pyval) : Prop :=
  ∀ req e m v n image a,
    form req !! key = Some v → py_int v = Some n →
    RemoteCall image a ∈ log (generate_3d_model req e (initial m)).2 →
    get a = PInt n.

(** *** Assertions on runs *)

(** [m] keeps the invariant [I], whether it returns or raises. *)
Definition keeps {A} (I : state → Prop) (m : M A) : Prop :=
  ∀ s, I s → I (m s).2.

(** When [m] starts in [P] and returns [a], [Q a] holds afterwards. *)
Definition hoare {A} (P : state → Prop) (m : M A) (Q : A → state → Prop) : Prop :=
  ∀ s a s', P s → m s = (Ok a, s') → Q a s'.

(** Whatever [m] returns satisfies [Q]. *)
Definition yields {A} (Q : A → Prop) (m : M A) : Prop :=
  ∀ s a s', m s = (Ok a, s') → Q a.

(** The log only grows from [pre]. *)
Definition log_from (pre : list event) (s : state) : Prop := pre `prefix_of` log s.

Definition file_at (p : string) (s : state) : Prop := is_file (fs s !! p) = true.
Definition dir_at (p : string) (s : state) : Prop := is_dir (fs s !! p) = true.
Definition local_is (p : string) (s : state) : Prop := image_path s = Some p.
Definition log_all (P : event → Prop) (s : state) : Prop := Forall P (log s).
(** Whatever lies directly under [d] is a file. *)
Definition children_files (d : string) (s : state) : Prop :=
  ∀ k, is_Some (child_name d k) → is_Some (fs s !! k) → is_file (fs s !! k) = true.

(** The OBJ export of [job] is in place: its directory, the OBJ file in
    it, and only files directly under it. *)
Definition job_converted (job : string) (s : state) : Prop :=
  dir_at (Path.join OUTPUT_FOLDER job) s
  ∧ file_at (Path.join (Path.join OUTPUT_FOLDER job) (job +:+ ".obj")) s
  ∧ children_files (Path.join OUTPUT_FOLDER job) s.

Definition conversion_free (ev : event) : Prop :=
  match ev with Conversion _ _ => False | _ => True end.
Definition fixed_resolution (ev : event) : Prop :=
  match ev with
  | RemoteCall _ a => octree_resolution a = PInt 256 ∧ num_chunks a = PInt 8000
  | _ => True
  end.


(** Nothing but a file, or nothing at all, is at [p]. *)
Definition not_dir_at (p : string) (s : state) : Prop := is_dir (fs s !! p) = false.

(** A file the request wrote at [p] is still there. *)
Definition wrote_kept (p : string) (s : state) : Prop :=
  Wrote p ∈ log s → file_at p s.

Definition is_remote_call (ev : event) : bool :=
  match ev with RemoteCall _ _ => true | _ => false end.

(** How often the remote model was called. *)
Definition remote_calls (l : list event) : nat :=
  length (List.filter is_remote_call l).

Definition called_at_most (n : nat) (s : state) : Prop :=
  (remote_calls (log s) ≤ n)%nat.

(** [m] leads from [I] to [J], whether it returns or raises. *)
Definition leads {A} (I J : state → Prop) (m : M A) : Prop :=
  ∀ s, I s → J (m s).2.

(** *** The command-line script (gradio-client.py)

    Its three functions, with the standard output left out.  The token
    argument only selects the credential of the remote session. *)




(** *** Failure answers and staging paths *)

(** The JSON 500 of the [except] clause of either generate view. *)
Definition failure_answer (r : request) (msg : string) : response :=
  match r with
  | PostGenerate _ =>
      jsonify
        {[ "error" := PStr msg;
           "message" := PStr "Generation failed. The Hugging Face Space may be overloaded.";
           "fallback_url" := PStr "https://huggingface.co/spaces/tencent/Hunyuan3D-2.1" ]}
        500
  | PostGenerateUrl _ =>
      jsonify {[ "error" := PStr msg; "message" := PStr "Generation failed" ]} 500
  end.

(** The path a request stages its image at, whether or not it gets there. *)
Definition staging_path (r : request) (e : env) : option string :=
  match r with
  | PostGenerate req =>
      file ← files req !! "file" ;
      Some (Path.join UPLOAD_FOLDER
              (uuid4 e +:+ "_" +:+ secure_filename (filename file)))
  | PostGenerateUrl data =>
      match data ≫= (λ d, d !! "image_url") with
      | Some (PStr u) =>
          Some (Path.join UPLOAD_FOLDER (uuid4 e +:+ "." +:+ staged_ext u))
      | _ => None
      end
  end.

(** The local [image_path] satisfies [P]. *)
Definition local_sat (P : option string → Prop) (s : state) : Prop :=
  P (image_path s).


(** *** Start-up

    The two [os.makedirs(.., exist_ok=True)] calls the module makes when it
    is loaded, at time [t]. *)
Definition create_folders (t : Qc) : M unit :=
  os_makedirs UPLOAD_FOLDER t ;;
  os_makedirs OUTPUT_FOLDER t.
(** * Properties *)

(** ** Strings and paths *)

Example lower_ex : Str.lower "Model.PNG" = "model.png".
Proof. reflexivity. Qed.
Example split_ex : Str.split "." "a.b..c" = ["a"; "b"; ""; "c"].
Proof. reflexivity. Qed.
Example split_nosep_ex : Str.split "?" "abc" = ["abc"].
Proof. reflexivity. Qed.
Example rsplit1_ex : Str.rsplit1 "." "a.tar.gz" = ["a.tar"; "gz"].
Proof. reflexivity. Qed.
Example rsplit1_nodot_ex : Str.rsplit1 "." "README" = ["README"].
Proof. reflexivity. Qed.
Example replace_ex : Str.replace ".glb" "" "a.glb.glb" = "a".
Proof. reflexivity. Qed.
Example replace_mid_ex : Str.replace ".glb" "" "x.glbs.glb" = "xs".
Proof. reflexivity. Qed.
Example endswith_ex : Str.endswith ".obj" "mesh.obj" = true.
Proof. reflexivity. Qed.
Example join_ex : Path.join "/srv/app" "output" = "/srv/app/output".
Proof. reflexivity. Qed.
Example join_abs_ex : Path.join "/srv/app" "/etc" = "/etc".
Proof. reflexivity. Qed.
Example join_empty_ex : Path.join "" "output" = "output".
Proof. reflexivity. Qed.
Example basename_ex : Path.basename "/srv/out/ab12.glb" = "ab12.glb".
Proof. reflexivity. Qed.
Example splitext_ex : Path.splitext "/srv/out/ab12.glb" = ("/srv/out/ab12", ".glb").
Proof. reflexivity. Qed.
Example splitext_dotfile_ex : Path.splitext "/srv/out/.glb" = ("/srv/out/.glb", "").
Proof. reflexivity. Qed.

Lemma app_cons c (r y : string) : String c r +:+ y = String c (r +:+ y).
Proof. done. Qed.

Lemma split_nonempty c s : Str.split c s ≠ [].
Proof. destruct s as [|a r]; simpl; [done|]. repeat case_match; done. Qed.

Lemma split_no_sep c s : Str.contains c s = false → Str.split c s = [s].
Proof.
  induction s as [|a r IH]; simpl; [done|].
  case_decide; [done|]. intros Hc. by rewrite (IH Hc).
Qed.

Lemma split_sep c s : Str.contains c s = true → ∃ x y l, Str.split c s = x :: y :: l.
Proof.
  induction s as [|a r IH]; simpl; [done|].
  case_decide.
  - intros _. destruct (Str.split c r) as [|y l] eqn:E.
    + by apply split_nonempty in E.
    + eauto.
  - intros Hc. destruct (IH Hc) as (x & y & l & ->). eauto.
Qed.

Lemma split_app_sep c x y :
  Str.split c (x +:+ String c y) = Str.split c x ++ Str.split c y.
Proof.
  induction x as [|a r IH]; simpl.
  - by rewrite decide_True.
  - rewrite IH. case_decide; [done|].
    destruct (Str.split c r) eqn:E; [by apply split_nonempty in E|done].
Qed.

Lemma last_app_nonempty (l1 l2 : list string) :
  l2 ≠ [] → Str.last (l1 ++ l2) = Str.last l2.
Proof.
  unfold Str.last. intros H. induction l1 as [|a l1 IH]; [done|].
  simpl. destruct (l1 ++ l2) eqn:E; [|done].
  apply app_eq_nil in E as [_ ?]. done.
Qed.

Lemma rsplit1_no_sep c s : Str.contains c s = false → Str.rsplit1 c s = [s].
Proof.
  induction s as [|a r IH]; simpl; [done|].
  case_decide; [done|]. intros Hc. by rewrite (IH Hc).
Qed.

Lemma rsplit1_app_sep c x y :
  Str.contains c y = false → Str.rsplit1 c (x +:+ String c y) = [x; y].
Proof.
  intros H. induction x as [|a r IH]; simpl.
  - rewrite (rsplit1_no_sep _ _ H). simpl. by rewrite decide_True.
  - by rewrite IH.
Qed.

(** [rsplit(".", 1)[1]] is the last piece of [split(".")]. *)
Lemma rsplit1_last c s :
  Str.contains c s = true →
  ∃ h, Str.rsplit1 c s = [h; Str.last (Str.split c s)].
Proof.
  induction s as [|a r IH]; simpl; [done|].
  destruct (Str.contains c r) eqn:Hr.
  - intros _. destruct (IH eq_refl) as [h ->].
    exists (String a h). f_equal. f_equal.
    destruct (split_sep _ _ Hr) as (x & y & l & E). rewrite E.
    case_decide; done.
  - rewrite (rsplit1_no_sep _ _ Hr), (split_no_sep _ _ Hr).
    case_decide; [|done]. intros _. by exists "".
Qed.

Lemma contains_app c x y :
  Str.contains c (x +:+ y) = Str.contains c x || Str.contains c y.
Proof. induction x as [|a r IH]; simpl; [done|]. by case_decide. Qed.

Lemma length_app (x y : string) :
  String.length (x +:+ y) = (String.length x + String.length y)%nat.
Proof. induction x as [|c r IH]; [done|]. rewrite app_cons. simpl. by rewrite IH. Qed.

Lemma app_empty_r (x : string) : x +:+ "" = x.
Proof. induction x as [|c r IH]; [done|]. by rewrite app_cons, IH. Qed.

Lemma app_assoc_s (x y z : string) : (x +:+ y) +:+ z = x +:+ y +:+ z.
Proof. induction x as [|c r IH]; [done|]. by rewrite !app_cons, IH. Qed.

Lemma endswith_inv p s : Str.endswith p s = true → ∃ a, s = a +:+ p.
Proof.
  induction s as [|c r IH]; simpl.
  - rewrite orb_false_r. intros ->%bool_decide_eq_true. by exists "".
  - intros [->%bool_decide_eq_true|H]%orb_true_iff; [by exists ""|].
    destruct (IH H) as [a ->]. by exists (String c a).
Qed.

Lemma endswith_app p a b :
  (String.length p ≤ String.length b)%nat →
  Str.endswith p (a +:+ b) = Str.endswith p b.
Proof.
  intros Hl. induction a as [|c r IH]; [done|].
  change (String c r +:+ b) with (String c (r +:+ b)).
  simpl. rewrite IH, bool_decide_eq_false_2; [done|].
  intros E. apply (f_equal String.length) in E. simpl in E.
  rewrite length_app in E. lia.
Qed.

Lemma endswith_contains c s :
  Str.endswith (String c "") s = true → Str.contains c s = true.
Proof.
  intros [a ->]%endswith_inv. rewrite contains_app. simpl.
  rewrite decide_True by done. apply orb_true_r.
Qed.

Lemma startswith_contains c s :
  Str.startswith (String c "") s = true → Str.contains c s = true.
Proof.
  destruct s as [|a r]; simpl; [done|].
  repeat case_decide; congruence.
Qed.

Lemma join_relative a b :
  Str.startswith "/" b = false → Path.join a b = join_prefix a +:+ b.
Proof.
  intros H. unfold Path.join, join_prefix. rewrite H.
  case_match; [done|]. by rewrite app_assoc_s.
Qed.

Lemma join_prefix_cases a : join_prefix a = "" ∨ ∃ x, join_prefix a = x +:+ "/".
Proof.
  unfold join_prefix. destruct (bool_decide (a = "")) eqn:E; simpl.
  - left. by apply bool_decide_eq_true in E.
  - right. destruct (Str.endswith "/" a) eqn:E'; [by apply endswith_inv|eauto].
Qed.

Lemma basename_no_slash p : Str.contains "/" (Path.basename p) = false.
Proof.
  unfold Path.basename. induction p as [|a r IH]; [done|].
  simpl. case_decide as Ha.
  - destruct (Str.split "/" r) eqn:E; [by apply split_nonempty in E|].
    exact IH.
  - destruct (Str.split "/" r) as [|h t] eqn:E; [by apply split_nonempty in E|].
    destruct t as [|h' t'].
    + unfold Str.last in *. simpl in *. by rewrite decide_False.
    + exact IH.
Qed.

Lemma basename_simple n : Str.contains "/" n = false → Path.basename n = n.
Proof. intros H. unfold Path.basename. by rewrite (split_no_sep _ _ H). Qed.

Lemma basename_join a n :
  Str.contains "/" n = false → Path.basename (Path.join a n) = n.
Proof.
  intros H. rewrite join_relative.
  - destruct (join_prefix_cases a) as [->|[x ->]].
    + by apply basename_simple.
    + rewrite app_assoc_s. change ("/" +:+ n) with (String "/" n).
      unfold Path.basename. rewrite split_app_sep, last_app_nonempty.
      * by rewrite (split_no_sep _ _ H).
      * apply split_nonempty.
  - destruct (Str.startswith "/" n) eqn:E; [|done].
    apply startswith_contains in E. congruence.
Qed.

(** A listed name is the last component of the path it stands for. *)
Lemma child_name_Some p k n :
  child_name p k = Some n →
  Path.join p n = k ∧ n ≠ "" ∧ Str.contains "/" n = false.
Proof.
  unfold child_name. case_bool_decide as Hb; [|done].
  destruct Hb as [Hn Hj]. intros E. injection E as <-.
  split_and!; [done..|apply basename_no_slash].
Qed.

Lemma child_name_join p n :
  Str.contains "/" n = false → n ≠ "" → child_name p (Path.join p n) = Some n.
Proof.
  intros H Hn. unfold child_name. rewrite (basename_join _ _ H).
  by rewrite bool_decide_eq_true_2.
Qed.

Lemma no_slash_relative n : Str.contains "/" n = false → Str.startswith "/" n = false.
Proof.
  intros H. destruct (Str.startswith "/" n) eqn:E; [|done].
  apply startswith_contains in E. congruence.
Qed.

Lemma join_longer p n :
  Str.contains "/" n = false → n ≠ "" →
  (String.length p < String.length (Path.join p n))%nat.
Proof.
  intros H Hn. rewrite join_relative by by apply no_slash_relative.
  rewrite length_app. unfold join_prefix. destruct n; [done|]. simpl.
  case_match; rewrite ?length_app; lia.
Qed.

Lemma child_name_self p : child_name p p = None.
Proof.
  destruct (child_name p p) as [n|] eqn:E; [|done].
  apply child_name_Some in E as (E & Hn & Hs).
  pose proof (join_longer p n Hs Hn) as Hl. rewrite E in Hl. lia.
Qed.

(** ** Job identifiers and the two areas *)

Lemma uuid_shape_chars i s :
  uuid_shape i s = true →
  Str.contains "/" s = false ∧ Str.contains "." s = false.
Proof.
  revert i. induction s as [|c r IH]; intros i; simpl; [done|].
  intros [Hc Hr]%andb_true_iff. destruct (IH _ Hr) as [-> ->].
  assert (c ≠ "/"%char ∧ c ≠ "."%char) as [??].
  { case_bool_decide.
    - apply bool_decide_eq_true in Hc as ->. done.
    - split; intros ->; done. }
  by rewrite !decide_False.
Qed.

Lemma uuid_head s :
  is_uuid s = true → ∃ c r, s = String c r ∧ c ≠ "/"%char ∧ c ≠ "."%char.
Proof.
  destruct s as [|c r]; [done|]. unfold is_uuid. simpl.
  intros [Hc _]%andb_true_iff. exists c, r. split_and!; [done|..]; by intros ->.
Qed.

Lemma uuid_no_slash s : is_uuid s = true → Str.contains "/" s = false.
Proof. intros H. by apply uuid_shape_chars in H as [??]. Qed.

Lemma uuid_no_dot s : is_uuid s = true → Str.contains "." s = false.
Proof. intros H. by apply uuid_shape_chars in H as [??]. Qed.

Lemma uuid_relative s x : is_uuid s = true → Str.startswith "/" (s +:+ x) = false.
Proof.
  intros (c & r & -> & Hc & _)%uuid_head. rewrite app_cons. simpl.
  by rewrite decide_False.
Qed.

(** The subdirectory of a conversion is named after the job. *)
Lemma splitext_job j :
  is_uuid j = true → (Path.splitext (j +:+ ".glb")).1 = j.
Proof.
  intros Hj. unfold Path.splitext.
  assert (Hs : Str.contains "/" (j +:+ ".glb") = false).
  { by rewrite contains_app, uuid_no_slash. }
  rewrite (basename_simple _ Hs), Nat.sub_diag.
  change (j +:+ ".glb") with (j +:+ String "." "glb").
  rewrite rsplit1_app_sep by done.
  destruct (uuid_head _ Hj) as (c & r & -> & _ & Hc). simpl.
  by rewrite decide_False.
Qed.

Lemma base_name_job j :
  is_uuid j = true →
  (Path.splitext (Path.basename (Path.join OUTPUT_FOLDER (j +:+ ".glb")))).1 = j.
Proof.
  intros Hj. rewrite basename_join; [by apply splitext_job|].
  by rewrite contains_app, uuid_no_slash.
Qed.

Lemma uploads_not_output p : in_uploads p → in_output p → False.
Proof. intros [z ->] [z' E]. by apply (inj _) in E. Qed.

Lemma area_prefix name :
  Str.startswith "/" name = false → name ≠ "" → Str.endswith "/" name = false →
  join_prefix (Path.join app_dir name) = join_prefix app_dir +:+ name +:+ "/".
Proof.
  intros Hr Hn He. rewrite (join_relative _ _ Hr). unfold join_prefix at 1.
  rewrite endswith_app, He, orb_false_r.
  - rewrite bool_decide_eq_false_2; [by rewrite app_assoc_s|].
    intros E%(f_equal String.length). rewrite length_app in E.
    destruct name; [done|simpl in E; lia].
  - destruct name; [done|simpl; lia].
Qed.

Lemma join_uploads x :
  Str.startswith "/" x = false → in_uploads (Path.join UPLOAD_FOLDER x).
Proof.
  intros H. exists x. rewrite (join_relative _ _ H). unfold UPLOAD_FOLDER.
  rewrite area_prefix by done. by rewrite !app_assoc_s.
Qed.

Lemma join_output x :
  Str.startswith "/" x = false → in_output (Path.join OUTPUT_FOLDER x).
Proof.
  intros H. exists x. rewrite (join_relative _ _ H). unfold OUTPUT_FOLDER.
  rewrite area_prefix by done. by rewrite !app_assoc_s.
Qed.

Lemma join_in_output d x :
  in_output d → Str.startswith "/" x = false → in_output (Path.join d x).
Proof.
  intros [z ->] H. rewrite (join_relative _ _ H). unfold join_prefix at 1.
  case_match.
  - exists (z +:+ x). by rewrite !app_assoc_s.
  - exists (z +:+ "/" +:+ x). by rewrite !app_assoc_s.
Qed.

(** ** Reasoning about runs *)

Lemma bind_run {A B} (m : M A) (k : A → M B) s :
  (m ≫= k) s
  = match m s with (Ok a, s') => k a s' | (Raise e, s') => (Raise e, s') end.
Proof. done. Qed.

Lemma bind_ok {A B} (m : M A) (k : A → M B) s b s' :
  (m ≫= k) s = (Ok b, s') → ∃ a s1, m s = (Ok a, s1) ∧ k a s1 = (Ok b, s').
Proof. rewrite bind_run. destruct (m s) as [[a|e] s1]; [eauto|done]. Qed.

Lemma keeps_ret {A} I (a : A) : keeps I (mret a).
Proof. by intros s. Qed.

Lemma keeps_raise {A} I e : keeps I (@raise A e).
Proof. by intros s. Qed.

Lemma keeps_lift {A} I (r : res A) : keeps I (lift r).
Proof. by intros s. Qed.

Lemma keeps_lift_err I o : keeps I (lift_err o).
Proof. by destruct o; intros s. Qed.

Lemma keeps_bind {A B} I (m : M A) (k : A → M B) :
  keeps I m → (∀ a, keeps I (k a)) → keeps I (m ≫= k).
Proof.
  intros Hm Hk s Hs. rewrite bind_run. specialize (Hm s Hs).
  destruct (m s) as [[a|e] s1]; [by apply Hk|done].
Qed.

Lemma keeps_try_except {A} I (m : M A) h :
  keeps I m → (∀ msg, keeps I (h msg)) → keeps I (try_except m h).
Proof.
  intros Hm Hh s Hs. unfold try_except. specialize (Hm s Hs).
  destruct (m s) as [[a|[c msg|c msg]] s1]; [done| |done]. by apply Hh.
Qed.

Lemma keeps_finally {A} I (m : M A) c :
  keeps I m → keeps I c → keeps I (finally m c).
Proof.
  intros Hm Hc s Hs. unfold finally. specialize (Hm s Hs).
  destruct (m s) as [r s1]. specialize (Hc s1 Hm).
  by destruct (c s1) as [[[]|e] s2].
Qed.

Lemma keeps_and {A} (I J : state → Prop) (m : M A) :
  keeps I m → keeps J m → keeps (λ s, I s ∧ J s) m.
Proof. intros HI HJ s [??]. split; [by apply HI|by apply HJ]. Qed.

(** Calls that only read. *)
Lemma keeps_get_fs I : keeps I get_fs.
Proof. by intros s. Qed.

Lemma keeps_exists I p : keeps I (os_path_exists p).
Proof. by intros s. Qed.

Lemma keeps_listdir I p : keeps I (os_listdir p).
Proof. intros s. unfold os_listdir. rewrite bind_run. simpl. by repeat case_match. Qed.

Lemma keeps_getctime I p : keeps I (os_path_getctime p).
Proof. intros s. unfold os_path_getctime. rewrite bind_run. simpl. by repeat case_match. Qed.

Lemma keeps_read_local I : keeps I read_image_path.
Proof. intros s. unfold read_image_path. by case_match. Qed.

Lemma keeps_py_lower I v : keeps I (py_lower v).
Proof. destruct v; by intros ?. Qed.

Lemma hoare_ret {A} (P : state → Prop) (a : A) (Q : A → state → Prop) :
  (∀ s, P s → Q a s) → hoare P (mret a) Q.
Proof. intros H s b s' Hs [= <- <-]. by apply H. Qed.

Lemma hoare_bind {A B} P (R : A → state → Prop) Q (m : M A) (k : A → M B) :
  hoare P m R → (∀ a, hoare (R a) (k a) Q) → hoare P (m ≫= k) Q.
Proof.
  intros Hm Hk s b s' Hs (a & s1 & E1 & E2)%bind_ok.
  eapply Hk; [|done]. by eapply Hm.
Qed.

Lemma hoare_conseq {A} (P P' : state → Prop) (Q Q' : A → state → Prop) (m : M A) :
  hoare P' m Q' → (∀ s, P s → P' s) → (∀ a s, Q' a s → Q a s) → hoare P m Q.
Proof. intros H HP HQ s a s' Hs E. eapply HQ, H; eauto. Qed.

Lemma hoare_keeps {A} I (m : M A) : keeps I m → hoare I m (λ _, I).
Proof. intros H s a s' Hs E. specialize (H s Hs). by rewrite E in H. Qed.

Lemma hoare_and {A} P (Q Q' : A → state → Prop) (m : M A) :
  hoare P m Q → hoare P m Q' → hoare P m (λ a s, Q a s ∧ Q' a s).
Proof. intros H H' s a s' Hs E. split; [by eapply H|by eapply H']. Qed.

Lemma hoare_false {A} (m : M A) Q : hoare (λ _, False) m Q.
Proof. by intros s a s' []. Qed.

Lemma hoare_try_except {A} P Q (m : M A) h :
  hoare P m Q → (∀ msg, hoare (λ _, True) (h msg) Q) → hoare P (try_except m h) Q.
Proof.
  intros Hm Hh s a s' Hs. unfold try_except.
  destruct (m s) as [[b|[c msg|c msg]] s1] eqn:E; [|by apply Hh|done].
  intros [= <- <-]. by eapply Hm.
Qed.

Lemma hoare_finally {A} P (R Q : A → state → Prop) (m : M A) c :
  hoare P m R → (∀ a, hoare (R a) c (λ _, Q a)) → hoare P (finally m c) Q.
Proof.
  intros Hm Hc s a s' Hs. unfold finally.
  destruct (m s) as [[b|e] s1] eqn:E; destruct (c s1) as [[[]|e'] s2] eqn:E';
    intros [= <- <-]. eapply Hc; [|done]. by eapply Hm.
Qed.

(** ** What the filesystem calls keep *)

Ltac prim :=
  unfold write_file, remote_store, os_makedirs, os_remove, emit, set_fs, get_fs,
    assign_image_path, raise, lift;
  rewrite ?bind_run; simpl.

Lemma file_at_write p q t : keeps (file_at p) (write_file q t).
Proof.
  intros [m l ip]; unfold file_at; simpl; intros HI; prim.
  destruct (is_dir (m !! q)); simpl; [done|].
  destruct (decide (q = p)) as [->|]; by simplify_map_eq.
Qed.

Lemma file_at_makedirs p q t : keeps (file_at p) (os_makedirs q t).
Proof.
  intros [m l ip]; unfold file_at; simpl; intros HI; prim.
  destruct (m !! q) as [[]|] eqn:E; simpl; [done..|].
  destruct (decide (q = p)) as [->|]; simplify_map_eq; [|done].
  by rewrite E in HI.
Qed.

Lemma file_at_emit p ev : keeps (file_at p) (emit ev).
Proof. by intros [m l ip]. Qed.

Lemma file_at_assign p q : keeps (file_at p) (assign_image_path q).
Proof. by intros [m l ip]. Qed.

Lemma file_at_remove p q : q ≠ p → keeps (file_at p) (os_remove q).
Proof.
  intros Hq [m l ip]; unfold file_at; simpl; intros HI; prim.
  destruct (m !! q) as [[]|] eqn:E; simpl; [|done..].
  by rewrite lookup_delete_ne.
Qed.

Lemma dir_at_write p q t : keeps (dir_at p) (write_file q t).
Proof.
  intros [m l ip]; unfold dir_at; simpl; intros HI; prim.
  destruct (is_dir (m !! q)) eqn:E; simpl; [done|].
  destruct (decide (q = p)) as [->|]; simplify_map_eq; [congruence|done].
Qed.

Lemma dir_at_makedirs p q t : keeps (dir_at p) (os_makedirs q t).
Proof.
  intros [m l ip]; unfold dir_at; simpl; intros HI; prim.
  destruct (m !! q) as [[]|] eqn:E; simpl; [done..|].
  destruct (decide (q = p)) as [->|]; by simplify_map_eq.
Qed.

Lemma dir_at_emit p ev : keeps (dir_at p) (emit ev).
Proof. by intros [m l ip]. Qed.

Lemma dir_at_assign p q : keeps (dir_at p) (assign_image_path q).
Proof. by intros [m l ip]. Qed.

Lemma dir_at_remove p q : keeps (dir_at p) (os_remove q).
Proof.
  intros [m l ip]; unfold dir_at; simpl; intros HI; prim.
  destruct (m !! q) as [[]|] eqn:E; simpl; [|done..].
  destruct (decide (q = p)) as [->|]; simplify_map_eq; [by rewrite E in HI|done].
Qed.

Lemma local_is_write p q t : keeps (local_is p) (write_file q t).
Proof. intros [m l ip] HI; prim. by destruct (is_dir (m !! q)). Qed.

Lemma local_is_makedirs p q t : keeps (local_is p) (os_makedirs q t).
Proof. intros [m l ip] HI; prim. by destruct (m !! q) as [[]|]. Qed.

Lemma local_is_emit p ev : keeps (local_is p) (emit ev).
Proof. by intros [m l ip]. Qed.

Lemma local_is_set_fs p m : keeps (local_is p) (set_fs m).
Proof. by intros [m' l ip]. Qed.

Lemma log_all_emit (P : event → Prop) ev : P ev → keeps (log_all P) (emit ev).
Proof.
  intros H [m l ip]; unfold log_all; simpl. intros HI.
  apply Forall_app; split; [done|by constructor].
Qed.

Lemma log_all_set_fs P m : keeps (log_all P) (set_fs m).
Proof. by intros [m' l ip]. Qed.

Lemma log_all_assign P q : keeps (log_all P) (assign_image_path q).
Proof. by intros [m l ip]. Qed.

Lemma log_all_write (P : event → Prop) q t :
  P (Wrote q) → keeps (log_all P) (write_file q t).
Proof.
  intros H. unfold write_file. apply keeps_bind; [apply keeps_get_fs|intros m].
  destruct (is_dir (m !! q)); [apply keeps_raise|].
  apply keeps_bind; [apply log_all_set_fs|intros _]. by apply log_all_emit.
Qed.

Lemma log_all_makedirs P q t : keeps (log_all P) (os_makedirs q t).
Proof.
  unfold os_makedirs. apply keeps_bind; [apply keeps_get_fs|intros m].
  destruct (m !! q) as [[]|]; [apply keeps_raise|apply keeps_ret|apply log_all_set_fs].
Qed.

Lemma log_all_remove P q : keeps (log_all P) (os_remove q).
Proof.
  unfold os_remove. apply keeps_bind; [apply keeps_get_fs|intros m].
  destruct (m !! q) as [[]|]; [apply log_all_set_fs|apply keeps_raise..].
Qed.

Lemma children_files_write d q t : keeps (children_files d) (write_file q t).
Proof.
  intros [m l ip]; unfold children_files; simpl; intros HI; prim.
  destruct (is_dir (m !! q)); simpl; [done|]. intros k Hk.
  destruct (decide (q = k)) as [->|]; simplify_map_eq; [done|by apply HI].
Qed.

Lemma children_files_makedirs d t : keeps (children_files d) (os_makedirs d t).
Proof.
  intros [m l ip]; unfold children_files; simpl; intros HI; prim.
  destruct (m !! d) as [[]|] eqn:E; simpl; [done..|]. intros k Hk.
  destruct (decide (d = k)) as [->|]; simplify_map_eq; [|by apply HI].
  rewrite child_name_self in Hk. by destruct Hk.
Qed.

Lemma children_files_remove d q : keeps (children_files d) (os_remove q).
Proof.
  intros [m l ip]; unfold children_files; simpl; intros HI; prim.
  destruct (m !! q) as [[]|] eqn:E; simpl; [|done..]. intros k Hk.
  destruct (decide (q = k)) as [->|]; simplify_map_eq; [by intros []|by apply HI].
Qed.

Lemma children_files_emit d ev : keeps (children_files d) (emit ev).
Proof. by intros [m l ip]. Qed.

Lemma children_files_assign d q : keeps (children_files d) (assign_image_path q).
Proof. by intros [m l ip]. Qed.

Lemma file_at_store p q t : keeps (file_at p) (remote_store q t).
Proof.
  intros [m l ip]; unfold file_at; simpl; intros HI; prim.
  destruct (is_dir (m !! q)); simpl; [done|].
  destruct (decide (q = p)) as [->|]; by simplify_map_eq.
Qed.

Lemma dir_at_store p q t : keeps (dir_at p) (remote_store q t).
Proof.
  intros [m l ip]; unfold dir_at; simpl; intros HI; prim.
  destruct (is_dir (m !! q)) eqn:E; simpl; [done|].
  destruct (decide (q = p)) as [->|]; simplify_map_eq; [congruence|done].
Qed.

Lemma local_is_store p q t : keeps (local_is p) (remote_store q t).
Proof. intros [m l ip] HI; prim. by destruct (is_dir (m !! q)). Qed.

Lemma log_all_store P q t : keeps (log_all P) (remote_store q t).
Proof. intros [m l ip] HI; prim. by destruct (is_dir (m !! q)). Qed.

Lemma children_files_store d q t : keeps (children_files d) (remote_store q t).
Proof.
  intros [m l ip]; unfold children_files; simpl; intros HI; prim.
  destruct (is_dir (m !! q)); simpl; [done|]. intros k Hk.
  destruct (decide (q = k)) as [->|]; simplify_map_eq; [done|by apply HI].
Qed.

Create HintDb keeps.
Hint Resolve keeps_ret keeps_raise keeps_lift keeps_lift_err keeps_get_fs
  keeps_exists keeps_listdir keeps_getctime keeps_read_local keeps_py_lower
  file_at_write file_at_makedirs file_at_emit file_at_assign file_at_store
  dir_at_write dir_at_makedirs dir_at_emit dir_at_assign dir_at_remove
  dir_at_store local_is_write local_is_makedirs local_is_emit local_is_store
  log_all_set_fs log_all_assign log_all_makedirs log_all_remove log_all_store
  children_files_write children_files_makedirs children_files_remove
  children_files_emit children_files_assign children_files_store : keeps.

(** Walk through a program, one call at a time. *)
Ltac keeps_go :=
  cbv zeta;
  repeat first
    [ match goal with
      | |- keeps _ (mbind _ _) => apply keeps_bind; [|intros ?; cbv zeta]
      | |- keeps _ (try_except _ _) => apply keeps_try_except; [|intros ?]
      | |- keeps _ (finally _ _) => apply keeps_finally
      | |- keeps _ (if ?b then _ else _) => destruct b
      | |- keeps _ (match ?x with _ => _ end) => destruct x
      end
    | solve [eauto with keeps]
    | solve [apply log_all_emit; simpl; auto]
    | solve [apply log_all_write; simpl; auto] ].

Lemma file_at_fetch p image params e :
  keeps (file_at p) (fetch_3d_from_image image params e).
Proof. unfold fetch_3d_from_image. keeps_go. Qed.

Lemma dir_at_fetch p image params e :
  keeps (dir_at p) (fetch_3d_from_image image params e).
Proof. unfold fetch_3d_from_image. keeps_go. Qed.

Lemma local_is_fetch p image params e :
  keeps (local_is p) (fetch_3d_from_image image params e).
Proof. unfold fetch_3d_from_image. keeps_go. Qed.

Lemma children_files_fetch d image params e :
  keeps (children_files d) (fetch_3d_from_image image params e).
Proof. unfold fetch_3d_from_image. keeps_go. Qed.

Lemma file_at_copy p src dst t : keeps (file_at p) (shutil_copy src dst t).
Proof. unfold shutil_copy. keeps_go. Qed.

Lemma dir_at_copy p src dst t : keeps (dir_at p) (shutil_copy src dst t).
Proof. unfold shutil_copy. keeps_go. Qed.

Lemma local_is_copy p src dst t : keeps (local_is p) (shutil_copy src dst t).
Proof. unfold shutil_copy. keeps_go. Qed.

Lemma children_files_copy d src dst t :
  keeps (children_files d) (shutil_copy src dst t).
Proof. unfold shutil_copy. keeps_go. Qed.

Lemma file_at_write_files p d names t : keeps (file_at p) (write_files d names t).
Proof. induction names; simpl; keeps_go. Qed.

Lemma dir_at_write_files p d names t : keeps (dir_at p) (write_files d names t).
Proof. induction names; simpl; keeps_go. Qed.

Lemma local_is_write_files p d names t : keeps (local_is p) (write_files d names t).
Proof. induction names; simpl; keeps_go. Qed.

Lemma children_files_write_files d d' names t :
  keeps (children_files d) (write_files d' names t).
Proof. induction names; simpl; keeps_go. Qed.

Hint Resolve file_at_fetch dir_at_fetch local_is_fetch children_files_fetch
  file_at_copy dir_at_copy local_is_copy children_files_copy
  file_at_write_files dir_at_write_files local_is_write_files
  children_files_write_files : keeps.

Lemma file_at_convert p glb out e : keeps (file_at p) (convert_glb_to_obj glb out e).
Proof. unfold convert_glb_to_obj. keeps_go. Qed.

Lemma local_is_convert p glb out e :
  keeps (local_is p) (convert_glb_to_obj glb out e).
Proof. unfold convert_glb_to_obj. keeps_go. Qed.

Hint Resolve file_at_convert local_is_convert : keeps.

Lemma file_at_generate p image params fmt job e :
  keeps (file_at p) (generate_and_respond image params fmt job e).
Proof. unfold generate_and_respond. keeps_go. Qed.

Lemma local_is_generate p image params fmt job e :
  keeps (local_is p) (generate_and_respond image params fmt job e).
Proof. unfold generate_and_respond. keeps_go. Qed.

Lemma yields_ret {A} (Q : A → Prop) a : Q a → yields Q (mret a).
Proof. by intros H s b s' [= <- <-]. Qed.

Lemma yields_raise {A} (Q : A → Prop) e : yields Q (raise e).
Proof. by intros s b s'. Qed.

Lemma yields_bind {A B} (Q : B → Prop) (m : M A) (k : A → M B) :
  (∀ a, yields Q (k a)) → yields Q (m ≫= k).
Proof. intros H s b s' (a & s1 & _ & E)%bind_ok. by eapply H. Qed.

Lemma yields_try_except {A} (Q : A → Prop) (m : M A) h :
  yields Q m → (∀ msg, yields Q (h msg)) → yields Q (try_except m h).
Proof.
  intros Hm Hh s a s'. unfold try_except.
  destruct (m s) as [[b|[c msg|c msg]] s1] eqn:E; [|by apply Hh|done].
  intros [= <- <-]. by eapply Hm.
Qed.

Lemma yields_finally {A} (Q : A → Prop) (m : M A) c :
  yields Q m → yields Q (finally m c).
Proof.
  intros Hm s a s'. unfold finally.
  destruct (m s) as [[b|e] s1] eqn:E; destruct (c s1) as [[[]|e'] s2];
    intros [= <- <-]. by eapply Hm.
Qed.

Lemma yields_ret_bind {A B} (Q : B → Prop) (a : A) (k : A → M B) :
  yields Q (k a) → yields Q (mret a ≫= k).
Proof. intros H s. apply H. Qed.

Ltac yields_go :=
  cbv zeta;
  repeat first
    [ match goal with
      | |- yields _ (mbind _ (mret _)) => apply yields_ret_bind
      | |- yields _ (mbind _ _) => apply yields_bind; intros ?; cbv zeta
      | |- yields _ (try_except _ _) => apply yields_try_except; [|intros ?]
      | |- yields _ (finally _ _) => apply yields_finally
      | |- yields _ (mret _) => apply yields_ret
      | |- yields _ (raise _) => apply yields_raise
      | |- yields _ (if ?b then _ else _) => destruct b
      | |- yields _ (match ?x with _ => _ end) => destruct x
      end ].

(** ** Upload validation *)

Lemma allowed_file_spec name :
  allowed_file name
  = match spec_extension name with
    | Some x => bool_decide (x ∈ ALLOWED_EXTENSIONS)
    | None => false
    end.
Proof.
  unfold allowed_file, spec_extension.
  destruct (Str.contains "." name) eqn:E; simpl.
  - destruct (rsplit1_last _ _ E) as [h ->].
    by destruct (split_sep _ _ E) as (x & y & l & ->).
  - by rewrite (split_no_sep _ _ E).
Qed.

Lemma job_never_400 file req e :
  yields (λ r, status r ≠ 400%nat) (generate_3d_model_job file req e).
Proof.
  unfold generate_3d_model_job, generate_and_respond. yields_go; done.
Qed.

(** C1. A generate-from-upload request without a file part, with an empty
    filename, or whose extension (the text after the last dot, lowercased)
    is not png, jpg, jpeg or webp is answered 400 and leaves the state as
    it was, so that nothing is written and the remote model is not called;
    any other upload passes validation: the view goes on to run the job,
    which never answers 400. *)
Theorem C1_upload_validation req e s :
  if spec_rejects req
  then ∃ d, generate_3d_model req e s = (Ok (jsonify d 400), s)
  else ∃ file, files req !! "file" = Some file
        ∧ generate_3d_model req e s = generate_3d_model_job file req e s
        ∧ yields (λ r, status r ≠ 400%nat) (generate_3d_model_job file req e).
Proof.
  unfold spec_rejects, generate_3d_model.
  destruct (files req !! "file") as [file|]; [|by eexists].
  rewrite allowed_file_spec.
  case_bool_decide; simpl; [by eexists|].
  destruct (spec_extension (filename file)) as [x|]; simpl; [|by eexists].
  case_bool_decide; simpl; [|by eexists].
  exists file. split_and!; [done..|]. apply job_never_400.
Qed.

(** ** The log only grows *)

Lemma log_from_emit pre ev : keeps (log_from pre) (emit ev).
Proof. intros [m l ip]. unfold log_from. simpl. apply prefix_app_r. Qed.

Lemma log_from_set_fs pre m : keeps (log_from pre) (set_fs m).
Proof. by intros [m' l ip]. Qed.

Lemma log_from_assign pre q : keeps (log_from pre) (assign_image_path q).
Proof. by intros [m l ip]. Qed.

Hint Resolve log_from_emit log_from_set_fs log_from_assign : keeps.

Lemma log_from_write pre q t : keeps (log_from pre) (write_file q t).
Proof. unfold write_file. keeps_go. Qed.

Lemma log_from_store pre q t : keeps (log_from pre) (remote_store q t).
Proof. unfold remote_store. keeps_go. Qed.

Lemma log_from_makedirs pre q t : keeps (log_from pre) (os_makedirs q t).
Proof. unfold os_makedirs. keeps_go. Qed.

Lemma log_from_remove pre q : keeps (log_from pre) (os_remove q).
Proof. unfold os_remove. keeps_go. Qed.

Hint Resolve log_from_write log_from_store log_from_makedirs log_from_remove : keeps.

Lemma log_from_write_files pre d names t : keeps (log_from pre) (write_files d names t).
Proof. induction names; simpl; keeps_go. Qed.

Hint Resolve log_from_write_files : keeps.

Lemma log_from_generate pre image params fmt job e :
  keeps (log_from pre) (generate_and_respond image params fmt job e).
Proof.
  unfold generate_and_respond, fetch_3d_from_image, shutil_copy,
    convert_glb_to_obj. keeps_go.
Qed.

(** Reading the form changes nothing. *)
Lemma keeps_form_int I f key d : keeps I (form_int f key d).
Proof. unfold form_int. keeps_go. Qed.

Lemma keeps_form_float I f key d : keeps I (form_float f key d).
Proof. unfold form_float. keeps_go. Qed.

Lemma keeps_upload_params I f : keeps I (upload_params f).
Proof.
  unfold upload_params.
  repeat (apply keeps_bind;
          [first [apply keeps_form_int|apply keeps_form_float]|intros ?]).
  apply keeps_ret.
Qed.

Hint Resolve log_from_generate keeps_form_int keeps_form_float
  keeps_upload_params file_at_generate local_is_generate : keeps.

Lemma log_from_elem pre s ev : log_from pre s → ev ∈ pre → ev ∈ log s.
Proof. intros [k ->] H. set_solver. Qed.

(** ** Cleanup of the staged input *)

Lemma try_except_bind_ok {A B} (m : M A) (k : A → M B) h s a s1 :
  m s = (Ok a, s1) → try_except (m ≫= k) h s = try_except (k a) h s1.
Proof. intros E. unfold try_except. by rewrite bind_run, E. Qed.

Lemma finally_eq {A} (m m' : M A) c s s1 :
  m s = m' s1 → finally m c s = finally m' c s1.
Proof. intros E. unfold finally. by rewrite E. Qed.

Lemma bind_run_ok {A B} (m : M A) (k : A → M B) s a s1 :
  m s = (Ok a, s1) → (m ≫= k) s = k a s1.
Proof. intros E. by rewrite bind_run, E. Qed.

(** The [finally] block of [generate_3d_model]. *)
Lemma cleanup_removes {A} p (body : M A) s :
  keeps (file_at p) body → file_at p s →
  fs (finally body
        (ex ← os_path_exists p ; if ex : bool then os_remove p else mret tt) s).2
    !! p = None.
Proof.
  intros Hk Hs. unfold finally. specialize (Hk s Hs).
  destruct (body s) as [r [m l ip]]. unfold file_at in Hk. simpl in *.
  rewrite bind_run. simpl. destruct (m !! p) as [[]|] eqn:E; [|done..].
  rewrite bool_decide_eq_true_2 by done.
  unfold os_remove. rewrite bind_run. simpl. rewrite E. simpl.
  apply lookup_delete_eq.
Qed.

(** The [finally] block of [generate_from_url], which reads the local. *)
Lemma cleanup_removes_local {A} p (body : M A) s :
  keeps (file_at p) body → keeps (local_is p) body →
  file_at p s → local_is p s →
  fs (finally body
        (q ← read_image_path ; ex ← os_path_exists q ;
         if ex : bool then os_remove q else mret tt) s).2
    !! p = None.
Proof.
  intros Hk Hl Hs Hs'. unfold finally.
  specialize (Hk s Hs). specialize (Hl s Hs').
  destruct (body s) as [r [m l ip]]. unfold file_at, local_is in *. simpl in *.
  subst ip. rewrite bind_run. simpl. rewrite bind_run. simpl.
  destruct (m !! p) as [[]|] eqn:E; [|done..].
  rewrite bool_decide_eq_true_2 by done.
  unfold os_remove. rewrite bind_run. simpl. rewrite E. simpl.
  apply lookup_delete_eq.
Qed.

Lemma download_image_ok u e s :
  requests_get e = None →
  download_image (PStr u) e s
  = (Ok u, {| fs := fs s; log := log s ++ [HttpGet (PStr u)];
              image_path := image_path s |}).
Proof. intros E. unfold download_image. rewrite bind_run. simpl. by rewrite E. Qed.

Lemma write_file_ok p t s :
  is_dir (fs s !! p) = false →
  write_file p t s
  = (Ok tt, {| fs := <[p := File t]> (fs s); log := log s ++ [Wrote p];
               image_path := image_path s |}).
Proof. intros E. unfold write_file. rewrite bind_run. simpl. by rewrite E. Qed.

(** C2. Whenever a generate request, through either route, gets as far as
    staging its input image, the staged file has been written and, once the
    request is over, no longer exists, whether the view returned a success,
    returned an error or raised. *)
Theorem C2_staged_input_removed r e m p :
  staged_at r e m = Some p →
  Wrote p ∈ log (generate r e (initial m)).2
  ∧ fs (generate r e (initial m)).2 !! p = None.
Proof.
  destruct r as [req|data]; simpl.
  - destruct (files req !! "file") as [file|] eqn:Hf; simpl; [|done].
    destruct (bool_decide (filename file = "")) eqn:Hn; simpl; [done|].
    destruct (allowed_file (filename file)) eqn:Ha; simpl; [|done].
    destruct (bool_decide (file_save e = None)) eqn:Hs; simpl; [|done].
    apply bool_decide_eq_true in Hs.
    destruct (is_dir (m !! _)) eqn:Hd; simpl; [done|].
    intros [= <-]. unfold generate_3d_model. rewrite Hf, Hn, Ha. simpl.
    unfold generate_3d_model_job. rewrite Hs. cbv zeta.
    set (image := Path.join UPLOAD_FOLDER _) in *.
    rewrite (bind_run_ok _ _ _ tt (initial m)) by done.
    erewrite bind_run_ok by (by apply write_file_ok).
    split.
    + apply (log_from_elem [Wrote image]); [|set_solver].
      apply keeps_finally; [..|by exists []].
      * apply keeps_try_except; [|intros; apply keeps_ret].
        apply keeps_bind; [apply keeps_upload_params|].
        intros. auto with keeps.
      * keeps_go.
    + apply cleanup_removes.
      * apply keeps_try_except; [|intros; apply keeps_ret].
        apply keeps_bind; [apply keeps_upload_params|].
        intros. auto with keeps.
      * unfold file_at. simpl. by rewrite lookup_insert_eq.
  - destruct data as [d|]; simpl; [|done].
    destruct (d !! "image_url") as [[| | | |u| |]|] eqn:Hu; simpl; try done.
    destruct (bool_decide (requests_get e = None)) eqn:Hs; simpl; [|done].
    apply bool_decide_eq_true in Hs.
    destruct (is_dir (m !! _)) eqn:Hd; simpl; [done|].
    intros [= <-]. unfold generate_from_url. rewrite ?Hu. cbv zeta.
    set (image := Path.join UPLOAD_FOLDER _) in *.
    erewrite finally_eq; last first.
    { erewrite try_except_bind_ok by (by apply download_image_ok).
      erewrite try_except_bind_ok by done.
      erewrite try_except_bind_ok by (by apply write_file_ok).
      done. }
    split.
    + apply (log_from_elem [HttpGet (PStr u); Wrote image]); [|set_solver].
      apply keeps_finally; [..|by exists []].
      * apply keeps_try_except; [|intros; apply keeps_ret].
        apply keeps_bind; [apply keeps_py_lower|]. intros. auto with keeps.
      * keeps_go.
    + apply cleanup_removes_local.
      * apply keeps_try_except; [|intros; apply keeps_ret].
        apply keeps_bind; [apply keeps_py_lower|]. intros. auto with keeps.
      * apply keeps_try_except; [|intros; apply keeps_ret].
        apply keeps_bind; [apply keeps_py_lower|]. intros. auto with keeps.
      * unfold file_at. simpl. by rewrite lookup_insert_eq.
      * done.
Qed.

(** ** What reaches the remote model *)

Lemma keeps_bind_yields {A B} I (Q : A → Prop) (m : M A) (k : A → M B) :
  keeps I m → yields Q m → (∀ a, Q a → keeps I (k a)) → keeps I (m ≫= k).
Proof.
  intros Hm HQ Hk s Hs. rewrite bind_run. specialize (Hm s Hs).
  destruct (m s) as [[a|e] s1] eqn:E; [|done].
  apply Hk; [by eapply HQ|done].
Qed.

Lemma keeps_ret_bind {A B} I (a : A) (k : A → M B) :
  keeps I (k a) → keeps I (mret a ≫= k).
Proof. intros H s. apply H. Qed.

Lemma keeps_raise_bind {A B} I e (k : A → M B) : keeps I (raise e ≫= k).
Proof. by intros s. Qed.

Lemma form_int_ok f key d s v s' :
  form_int f key d s = (Ok v, s') → ∃ n, v = PInt n ∧ int_field f key d n.
Proof.
  unfold form_int, int_field. destruct (f !! key) as [x|].
  - destruct (py_int x) as [n|] eqn:E; [|done]. intros [= <- <-]. eauto.
  - intros [= <- <-]. eauto.
Qed.

Lemma form_float_ok f key d s v s' :
  form_float f key d s = (Ok v, s') → ∃ x, v = PFloat x ∧ float_field f key d x.
Proof.
  unfold form_float, float_field. destruct (f !! key) as [y|].
  - destruct (py_float y) as [x|] eqn:E; [|done]. intros [= <- <-]. eauto.
  - intros [= <- <-]. eauto.
Qed.

Lemma upload_params_shape f : yields (params_shape f) (upload_params f).
Proof.
  intros s p s'. unfold upload_params.
  intros (st & s1 & (n & -> & Hn)%form_int_ok & H)%bind_ok.
  apply bind_ok in H as (gs & s2 & (x & -> & Hx)%form_float_ok & H).
  apply bind_ok in H as (sd & s3 & (k & -> & Hk)%form_int_ok & H).
  injection H as <- <-. by exists n, x, k.
Qed.

Lemma form_flag_field f key : form_flag f key = PBool (flag_field f key).
Proof. unfold form_flag, flag_field. by destruct (f !! key). Qed.

Lemma log_all_write_files (P : event → Prop) d names t :
  (∀ q, P (Wrote q)) → keeps (log_all P) (write_files d names t).
Proof. intros H. induction names; simpl; keeps_go. Qed.

Lemma log_all_generate_glb (P : event → Prop) image params fmt job e :
  fmt ≠ "obj" → (∀ q, P (Wrote q)) → P (RemoteCall image (predict_args_of params)) →
  keeps (log_all P) (generate_and_respond image params fmt job e).
Proof.
  intros Hf Hw Hr. unfold generate_and_respond, fetch_3d_from_image, shutil_copy.
  rewrite bool_decide_eq_false_2 by done. keeps_go.
Qed.

Lemma log_all_generate (P : event → Prop) image params fmt job e :
  (∀ q, P (Wrote q)) → (∀ g o, P (Conversion g o)) →
  P (RemoteCall image (predict_args_of params)) →
  keeps (log_all P) (generate_and_respond image params fmt job e).
Proof.
  intros Hw Hc Hr. pose proof (log_all_write_files P).
  unfold generate_and_respond, fetch_3d_from_image, shutil_copy,
    convert_glb_to_obj. keeps_go.
Qed.

(** The events of a run of [generate_3d_model]. *)
Lemma log_all_upload (P : event → Prop) req e :
  (∀ q, P (Wrote q)) →
  (∀ image p, params_shape (form req) p → P (RemoteCall image (predict_args_of p))) →
  (∀ g o, requested_format (PostGenerate req) = Some "obj" → P (Conversion g o)) →
  keeps (log_all P) (generate_3d_model req e).
Proof.
  intros Hw Hr Hc. unfold generate_3d_model, generate_3d_model_job.
  destruct (files req !! "file") as [file|]; [|apply keeps_ret].
  destruct (bool_decide _); [apply keeps_ret|].
  destruct (negb _); [apply keeps_ret|]. cbv zeta.
  apply keeps_bind; [apply keeps_lift_err|intros _].
  apply keeps_bind; [by apply log_all_write|intros _].
  apply keeps_finally; [|keeps_go].
  apply keeps_try_except; [|intros; apply keeps_ret].
  eapply keeps_bind_yields;
    [apply keeps_upload_params|apply upload_params_shape|].
  intros p Hp. simpl in Hc.
  destruct (decide (Str.lower (default "glb" (form req !! "output_format")) = "obj"))
    as [E|E].
  - apply log_all_generate; [done| |by apply Hr]. intros. apply Hc. by rewrite E.
  - apply log_all_generate_glb; [done..|by apply Hr].
Qed.

(** The events of a run of [generate_from_url]. *)
Lemma log_all_url (P : event → Prop) data e :
  (∀ q, P (Wrote q)) → (∀ u, P (HttpGet u)) →
  (∀ image, P (RemoteCall image (predict_args_of (url_params (default ∅ data))))) →
  (∀ g o, requested_format (PostGenerateUrl data) = Some "obj" → P (Conversion g o)) →
  keeps (log_all P) (generate_from_url data e).
Proof.
  intros Hw Hg Hr Hc. unfold generate_from_url.
  destruct data as [d|]; [|apply keeps_ret].
  destruct (d !! "image_url") as [image_url|]; [|apply keeps_ret]. cbv zeta.
  apply keeps_finally; [|keeps_go].
  apply keeps_try_except; [|intros; apply keeps_ret].
  apply keeps_bind; [unfold download_image; keeps_go|intros u].
  apply keeps_bind; [apply log_all_assign|intros _].
  apply keeps_bind; [by apply log_all_write|intros _].
  simpl in Hc, Hr.
  destruct (default (PStr "glb") (d !! "output_format")) as [| | | |v| |];
    try apply keeps_raise_bind.
  apply keeps_ret_bind.
  destruct (decide (Str.lower v = "obj")) as [E|E].
  - apply log_all_generate; [done| |by apply Hr]. intros. apply Hc. by rewrite E.
  - apply log_all_generate_glb; [done..|by apply Hr].
Qed.

Lemma predict_args_of_bag v1 v2 v3 v4 v5 :
  predict_args_of
    {[ "steps" := v1; "guidance_scale" := v2; "seed" := v3;
       "remove_background" := v4; "randomize_seed" := v5 ]}
  = {| steps := v1; guidance_scale := v2; seed := v3;
       octree_resolution := PInt 256; check_box_rembg := v4;
       num_chunks := PInt 8000; randomize_seed := v5 |}.
Proof. unfold predict_args_of. by simplify_map_eq. Qed.

(** C7. On the upload route the remote model receives [steps] and [seed]
    coerced to integers, [guidance_scale] coerced to a float and
    [remove_background] and [randomize_seed] as booleans, true iff the
    lowercased form value is "true", with the defaults 30, 1234, 5, true and
    true; on the URL route it receives the values of the same names as the
    JSON body has them, uncoerced, with the same defaults. *)
Theorem C7_parameters_forwarded r e m image a :
  RemoteCall image a ∈ log (generate r e (initial m)).2 → forwarded r a.
Proof.
  intros Hin.
  assert (H : log_all (forwarded_event r) (generate r e (initial m)).2).
  { destruct r as [req|data]; simpl.
    - apply log_all_upload; [done| |done|by constructor].
      intros img p (n & x & k & -> & Hn & Hx & Hk).
      rewrite predict_args_of_bag, !form_flag_field. simpl.
      split_and!; eauto.
    - apply log_all_url; [done..| |done|by constructor].
      intros img. unfold url_params. by rewrite predict_args_of_bag. }
  unfold log_all in H. rewrite Forall_forall in H. by apply (H _ Hin).
Qed.

(** C8, as the code has it. Neither route exposes [octree_resolution] or
    [num_chunks]: whatever a request supplies, every remote call is made
    with the defaults 256 and 8000. *)
Theorem C8_resolution_not_exposed r e m :
  Forall fixed_resolution (log (generate r e (initial m)).2).
Proof.
  destruct r as [req|data]; simpl.
  - apply log_all_upload; [done| |done|by constructor].
    intros img p (n & x & k & -> & _). by rewrite predict_args_of_bag.
  - apply log_all_url; [done..| |done|by constructor].
    intros img. unfold url_params. by rewrite predict_args_of_bag.
Qed.

(** ** Output formats other than obj *)

Lemma generate_and_respond_glb image params fmt job e :
  fmt ≠ "obj" →
  generate_and_respond image params fmt job e
  = generate_and_respond image params "glb" job e.
Proof.
  intros H. unfold generate_and_respond.
  by rewrite (bool_decide_eq_false_2 (fmt = "obj")).
Qed.

Lemma generate_glb_no_obj_url image params job e :
  yields no_obj_url (generate_and_respond image params "glb" job e).
Proof.
  unfold generate_and_respond. simpl. yields_go. by intros d [= <-].
Qed.

Lemma generate_no_obj_url image params fmt job e :
  fmt ≠ "obj" → yields no_obj_url (generate_and_respond image params fmt job e).
Proof.
  intros H. rewrite generate_and_respond_glb by done.
  apply generate_glb_no_obj_url.
Qed.

Lemma upload_params_insert f v :
  upload_params (<["output_format" := v]> f) = upload_params f.
Proof.
  unfold upload_params, form_int, form_float, form_flag.
  by rewrite !lookup_insert_ne.
Qed.

Lemma url_params_insert d v :
  url_params (<["output_format" := v]> d) = url_params d.
Proof. unfold url_params. by rewrite !lookup_insert_ne. Qed.

Lemma bind_ext {A B} (m : M A) (k k' : A → M B) s :
  (∀ a s1, k a s1 = k' a s1) → (m ≫= k) s = (m ≫= k') s.
Proof. intros H. rewrite !bind_run. by destruct (m s) as [[a|x] s1]. Qed.

Lemma try_except_ext {A} (m m' : M A) h s :
  m s = m' s → try_except m h s = try_except m' h s.
Proof. intros H. unfold try_except. by rewrite H. Qed.

Lemma json_of_yields (Q : response → Prop) (m : M response) s d :
  yields Q m → json_of (flask (m s).1) = Some d →
  ∃ r, Q r ∧ payload r = Json d.
Proof.
  intros H. destruct (m s) as [[r|[]] s'] eqn:E; simpl; [|done..].
  destruct r as [st [o|pa dn]]; simpl; [|by intros [=]]. intros [= <-].
  exists {| status := st; payload := Json o |}. split; [by eapply H|done].
Qed.

(** C10. A generate request, through either route, whose [output_format]
    lowercases to anything but "obj" (an unlisted value such as "stl", or
    the empty string) is served as a GLB job: no conversion is attempted,
    the answer carries no [obj_url], and the run is the very run of the same
    request asking for "glb", so the value raises no validation error. *)
Theorem C10_other_formats_are_glb r e m fmt :
  requested_format r = Some fmt → fmt ≠ "obj" →
  Forall conversion_free (log (generate r e (initial m)).2)
  ∧ (∀ d, json_of (flask (generate r e (initial m)).1) = Some d →
          d !! "obj_url" = None)
  ∧ generate r e (initial m) = generate (with_format "glb" r) e (initial m).
Proof.
  intros Hf Hne. split_and!.
  - destruct r as [req|data]; simpl.
    + apply log_all_upload; [done..| |by constructor].
      intros g o E. congruence.
    + apply log_all_url; [done..| |by constructor].
      intros g o E. congruence.
  - intros d Hd. apply (json_of_yields no_obj_url) in Hd as (resp & Hr & Hp);
      [by apply Hr|].
    destruct r as [req|data]; simpl in *.
    + injection Hf as <-. unfold generate_3d_model, generate_3d_model_job.
      yields_go; first [by intros ? [= <-]|by apply generate_no_obj_url].
    + unfold generate_from_url.
      destruct data as [dt|]; [|yields_go; by intros ? [= <-]].
      simpl in Hf.
      destruct (dt !! "image_url"); [|yields_go; by intros ? [= <-]].
      destruct (default (PStr "glb") (dt !! "output_format")); try done.
      injection Hf as <-. simpl.
      yields_go; first [by intros ? [= <-]|by apply generate_no_obj_url].
  - destruct r as [req|data]; simpl in *.
    + injection Hf as <-. unfold generate_3d_model, generate_3d_model_job.
      simpl. rewrite upload_params_insert.
      destruct (files req !! "file") as [file|]; [|done].
      repeat case_match; try done.
      do 2 (apply bind_ext; intros ? ?). apply finally_eq, try_except_ext.
      apply bind_ext. intros params s. rewrite lookup_insert_eq.
      by rewrite generate_and_respond_glb.
    + destruct data as [dt|]; [|done]. unfold generate_from_url.
      simpl in *. rewrite lookup_insert_ne by done.
      destruct (dt !! "image_url") as [image_url|]; [|done].
      apply finally_eq, try_except_ext.
      do 3 (apply bind_ext; intros ? ?).
      rewrite url_params_insert, lookup_insert_eq.
      destruct (default (PStr "glb") (dt !! "output_format")); try done.
      injection Hf as <-. simpl. rewrite !bind_run. simpl.
      by rewrite (generate_and_respond_glb _ _ (Str.lower s)).
Qed.

(** ** The URL route: download failures and staging *)

(** C3, as the code has it. When the download of the image fails, the
    [except] clause prepares the JSON 500 answer, but the [finally] block
    then reads [image_path], which was never assigned: the view raises
    [UnboundLocalError] and the client gets the framework's 500 page, not a
    JSON object with [error] and [message].  No file is created. *)
Theorem C3_download_failure_escapes d u e m cls msg :
  d !! "image_url" = Some (PStr u) →
  requests_get e = Some (Exception cls msg) →
  (generate_from_url (Some d) e (initial m)).1 = Raise unbound_image_path
  ∧ flask (generate_from_url (Some d) e (initial m)).1 = InternalServerError
  ∧ json_of (flask (generate_from_url (Some d) e (initial m)).1) = None
  ∧ fs (generate_from_url (Some d) e (initial m)).2 = m.
Proof.
  intros Hu He. unfold generate_from_url. rewrite Hu.
  unfold finally, try_except, download_image. rewrite !bind_run. simpl.
  rewrite He. simpl. done.
Qed.



(** ** Listing the models *)

Lemma insert_desc_perm {A} (key : A → Qc) x l : insert_desc key x l ≡ₚ x :: l.
Proof.
  induction l as [|y l IH]; simpl; [done|].
  case_bool_decide; [|done]. rewrite IH. apply Permutation_swap.
Qed.

Lemma sorted_desc_perm {A} (key : A → Qc) l : sorted_desc key l ≡ₚ l.
Proof.
  induction l as [|x l IH]; simpl; [done|].
  by rewrite insert_desc_perm, IH.
Qed.

Lemma insert_desc_sorted {A} (key : A → Qc) x l :
  StronglySorted (λ a b, (key b ≤ key a)%Qc) l →
  StronglySorted (λ a b, (key b ≤ key a)%Qc) (insert_desc key x l).
Proof.
  induction 1 as [|y l Hl IH Hy]; simpl.
  - by repeat constructor.
  - case_bool_decide as Hlt.
    + constructor; [done|]. rewrite insert_desc_perm.
      constructor; [by apply Qclt_le_weak|done].
    + apply Qcnot_lt_le in Hlt. constructor; [by constructor|].
      constructor; [done|]. eapply Forall_impl; [done|].
      intros z Hz. simpl in *. by eapply Qcle_trans.
Qed.

Lemma sorted_desc_sorted {A} (key : A → Qc) l :
  StronglySorted (λ a b, (key b ≤ key a)%Qc) (sorted_desc key l).
Proof.
  induction l as [|x l IH]; simpl; [constructor|]. by apply insert_desc_sorted.
Qed.

Lemma strongly_sorted_lookup {A} (R : relation A) l i j x y :
  StronglySorted R l → l !! i = Some x → l !! j = Some y → (i < j)%nat → R x y.
Proof.
  intros Hs. revert i j. induction Hs as [|z l Hl IH Hz]; intros i j; [done|].
  destruct i as [|i], j as [|j]; simpl; try lia.
  - intros [= <-] Hy _. rewrite Forall_forall in Hz.
    apply Hz. by eapply list_elem_of_lookup_2.
  - intros Hx Hy Hij. apply (IH i j); [done..|lia].
Qed.

(** Every listed name is a path that exists. *)
Lemma listed_exists (m : gmap string node) d f :
  f ∈ omap (child_name d) (map_to_list m).*1 → is_Some (m !! Path.join d f).
Proof.
  intros (k & Hk & Hf)%list_elem_of_omap.
  apply child_name_Some in Hf as (-> & _).
  apply list_elem_of_fmap in Hk as ([k' n] & -> & Hk).
  apply elem_of_map_to_list in Hk. by exists n.
Qed.

Lemma collect_models_ok names s :
  (∀ f, f ∈ names → is_Some (fs s !! Path.join OUTPUT_FOLDER f)) →
  collect_models names s
  = (Ok (model_of (fs s) <$> List.filter (Str.endswith ".glb") names), s).
Proof.
  induction names as [|f names IH]; intros H; simpl; [done|].
  specialize (IH (λ f' Hf', H f' (list_elem_of_further _ _ _ Hf'))).
  destruct (Str.endswith ".glb" f); [|done].
  rewrite bind_run. unfold os_path_getctime. rewrite bind_run. simpl.
  destruct (H f) as [n Hn]; [by left|]. unfold model_of. rewrite Hn.
  simpl. rewrite bind_run. by rewrite IH.
Qed.

Lemma insert_desc_fmap {A B} (g : A → B) (key : B → Qc) (key' : A → Qc) x l :
  (∀ a, key (g a) = key' a) →
  insert_desc key (g x) (g <$> l) = g <$> insert_desc key' x l.
Proof.
  intros Hk. induction l as [|y l IH]; simpl; [done|].
  rewrite !Hk. case_bool_decide; [|done]. simpl. f_equal. exact IH.
Qed.

(** Sorting commutes with a map that keeps the keys. *)
Lemma sorted_desc_fmap {A B} (g : A → B) (key : B → Qc) (key' : A → Qc) l :
  (∀ a, key (g a) = key' a) →
  sorted_desc key (g <$> l) = g <$> sorted_desc key' l.
Proof.
  intros Hk. induction l as [|x l IH]; [done|].
  change (insert_desc key (g x) (sorted_desc key (g <$> l))
          = g <$> insert_desc key' x (sorted_desc key' l)).
  rewrite IH. by apply insert_desc_fmap.
Qed.

Lemma replace_glb_suffix j :
  Str.contains "." j = false → Str.replace ".glb" "" (j +:+ ".glb") = j.
Proof.
  unfold Str.replace. induction j as [|a j IH]; [done|].
  intros Hj. simpl in Hj. destruct (decide (a = "."%char)) as [|Ha]; [done|].
  rewrite app_cons. simpl. rewrite decide_False by done.
  by rewrite IH.
Qed.

(** The listing, computed: the names ending in [.glb] paired with their
    creation times, newest first. *)
Lemma list_models_entries s :
  dir_at OUTPUT_FOLDER s →
  list_models s
  = (Ok (jsonify
       {[ "models" := PList
            ((λ x : string * Qc, listing_entry (Str.replace ".glb" "" x.1) x.2) <$>
             sorted_desc snd
               ((λ f, (f, from_option node_ctime (Q2Qc 0)
                            (fs s !! Path.join OUTPUT_FOLDER f))) <$>
                output_glbs (fs s)));
          "total" := PInt (Z.of_nat (length
            (sorted_desc snd
               ((λ f, (f, from_option node_ctime (Q2Qc 0)
                            (fs s !! Path.join OUTPUT_FOLDER f))) <$>
                output_glbs (fs s))))) ]} 200), s).
Proof.
  unfold dir_at. intros Hd.
  unfold list_models, os_listdir. rewrite !bind_run. simpl.
  destruct (fs s !! OUTPUT_FOLDER) as [[]|]; try done. simpl.
  rewrite bind_run, collect_models_ok by (intros f; apply listed_exists).
  simpl. fold (output_glbs (fs s)).
  set (pair := λ f, (f, from_option node_ctime (Q2Qc 0)
                          (fs s !! Path.join OUTPUT_FOLDER f))).
  set (g := λ x : string * Qc,
         {| job_id := Str.replace ".glb" "" x.1;
            glb_url := download_url (Str.replace ".glb" "" x.1) "glb";
            created_at := x.2 |}).
  assert (model_of (fs s) <$> output_glbs (fs s) = g <$> (pair <$> output_glbs (fs s)))
    as -> by by rewrite <-list_fmap_compose.
  rewrite (sorted_desc_fmap g created_at snd) by done.
  rewrite <-list_fmap_compose, !length_fmap.
  by rewrite (Permutation_length (sorted_desc_perm _ _)), length_fmap.
Qed.

(** C5. When the output area is there, the listing answers 200 with one
    entry per name of the area ending in [.glb]: a JSON object with the
    [job_id] derived from the name (the name itself without its [.glb] when
    the rest has no dot), the [glb_url] of that job and, as [created_at],
    the creation time the filesystem reports for the file.  The entries
    come newest first, so that of two entries with different creation
    times the later one stands before the earlier one; and [total] is the
    number of entries. *)
Theorem C5_list_models m t :
  m !! OUTPUT_FOLDER = Some (Dir t) →
  ∃ entries : list (string * Qc),
    list_models (initial m)
    = (Ok (jsonify
         {[ "models" := PList
              ((λ x, listing_entry (Str.replace ".glb" "" x.1) x.2) <$> entries);
            "total" := PInt (Z.of_nat (length entries)) ]} 200),
       initial m)
    ∧ entries.*1 ≡ₚ output_glbs m
    ∧ Forall (λ x, ∃ n, m !! Path.join OUTPUT_FOLDER x.1 = Some n
                        ∧ x.2 = node_ctime n) entries
    ∧ (∀ j c, (j +:+ ".glb", c) ∈ entries → Str.contains "." j = false →
         listing_entry j c
         ∈ (λ x, listing_entry (Str.replace ".glb" "" x.1) x.2) <$> entries)
    ∧ StronglySorted (λ a b, (b.2 ≤ a.2)%Qc) entries
    ∧ ∀ i j x y, entries !! i = Some x → entries !! j = Some y →
        (x.2 < y.2)%Qc → (j < i)%nat.
Proof.
  intros Hd.
  set (pair := λ f, (f, from_option node_ctime (Q2Qc 0)
                          (m !! Path.join OUTPUT_FOLDER f))).
  exists (sorted_desc snd (pair <$> output_glbs m)).
  split_and!.
  - apply (list_models_entries (initial m)). unfold dir_at. simpl. by rewrite Hd.
  - rewrite sorted_desc_perm, <-list_fmap_compose. by rewrite list_fmap_id.
  - rewrite sorted_desc_perm. apply Forall_fmap, Forall_forall.
    intros f Hf. simpl.
    destruct (listed_exists m OUTPUT_FOLDER f) as [n Hn].
    { unfold output_glbs in Hf. apply list_elem_of_In, filter_In in Hf as [Hf _].
      by apply list_elem_of_In. }
    exists n. by rewrite Hn.
  - intros j c Hin Hj. apply list_elem_of_fmap. exists (j +:+ ".glb", c).
    split; [|done]. simpl. by rewrite replace_glb_suffix.
  - apply sorted_desc_sorted.
  - intros i j x y Hx Hy Hlt.
    destruct (decide (j < i)%nat) as [|Hn]; [done|]. exfalso.
    destruct (decide (i = j)) as [->|Hij].
    + rewrite Hx in Hy. injection Hy as ->.
      by apply Qclt_not_le in Hlt.
    + pose proof (strongly_sorted_lookup _ _ i j x y
        (sorted_desc_sorted snd _) Hx Hy ltac:(lia)) as Hle.
      simpl in Hle. by apply Qclt_not_le in Hlt.
Qed.

(** ** Downloads *)

Lemma download_glb job s :
  download_model job "glb" s
  = match fs s !! Path.join OUTPUT_FOLDER (job +:+ ".glb") with
    | Some (File _) =>
        (Ok {| status := 200;
               payload := Attachment (Path.join OUTPUT_FOLDER (job +:+ ".glb"))
                            (job +:+ ".glb") |}, s)
    | Some (Dir _) =>
        (Raise (Exception "IsADirectoryError"
                  (Path.join OUTPUT_FOLDER (job +:+ ".glb"))), s)
    | None => (Ok not_found, s)
    end.
Proof.
  unfold download_model, os_path_exists, send_file. simpl.
  rewrite !bind_run. simpl.
  destruct (fs s !! _) as [[]|] eqn:E; simpl; rewrite ?bind_run; simpl;
    by rewrite ?E.
Qed.

Lemma download_obj_absent job s :
  fs s !! Path.join OUTPUT_FOLDER job = None →
  download_model job "obj" s = (Ok not_found, s).
Proof.
  intros E. unfold download_model, os_path_exists. simpl.
  rewrite !bind_run. simpl. by rewrite E.
Qed.

Lemma download_other job fmt s :
  fmt ≠ "glb" → fmt ≠ "obj" → download_model job fmt s = (Ok not_found, s).
Proof.
  intros H1 H2. unfold download_model. by rewrite !bool_decide_eq_false_2.
Qed.

(** C4, as the code has it. A download of format obj whose job id names a
    regular file of the output area (the GLB of a finished job, say) finds
    that [os.path.exists] holds, calls [os.listdir] on the file and raises:
    the client gets the framework's 500, not the 404 of a missing
    subdirectory. *)
Theorem C4_obj_of_a_file_raises job m t :
  m !! Path.join OUTPUT_FOLDER job = Some (File t) →
  (download_model job "obj" (initial m)).1
  = Raise (Exception "NotADirectoryError" (Path.join OUTPUT_FOLDER job))
  ∧ http_status (flask (download_model job "obj" (initial m)).1) = Some 500%nat.
Proof.
  intros E. unfold download_model, os_path_exists, os_listdir. simpl.
  rewrite !bind_run. simpl. rewrite E. simpl. rewrite !bind_run. simpl.
  by rewrite E.
Qed.

(** ** A successful OBJ job and its download *)

Lemma keeps_run {A} I (m : M A) s r s' : keeps I m → I s → m s = (r, s') → I s'.
Proof. intros H Hs E. specialize (H s Hs). by rewrite E in H. Qed.

Lemma finally_ok {A} (m : M A) c s a s' :
  finally m c s = (Ok a, s') → ∃ s1, m s = (Ok a, s1) ∧ c s1 = (Ok tt, s').
Proof.
  unfold finally. destruct (m s) as [[b|x] s1];
    destruct (c s1) as [[[]|y] s2] eqn:E; intros [= <- <-]. eauto.
Qed.

Lemma try_except_ok {A} (m : M A) h s a s' :
  try_except m h s = (Ok a, s') →
  m s = (Ok a, s') ∨ ∃ msg s1, h msg s1 = (Ok a, s').
Proof.
  unfold try_except. destruct (m s) as [[b|[c msg|c msg]] s1]; [by left| |done].
  intros H. right. eauto.
Qed.

Lemma makedirs_ok q t s a s' : os_makedirs q t s = (Ok a, s') → dir_at q s'.
Proof.
  unfold os_makedirs, dir_at. rewrite bind_run. simpl.
  destruct (fs s !! q) as [[]|] eqn:E; [done|..]; intros [= <- <-]; simpl.
  - by rewrite E.
  - by rewrite lookup_insert_eq.
Qed.

Lemma write_ok q t s a s' : write_file q t s = (Ok a, s') → file_at q s'.
Proof.
  unfold write_file, file_at. rewrite bind_run. simpl.
  destruct (is_dir (fs s !! q)); [done|]. intros [= <- <-]. simpl.
  by rewrite lookup_insert_eq.
Qed.

Lemma endswith_app_self p a : Str.endswith p (a +:+ p) = true.
Proof.
  induction a as [|c r IH].
  - destruct p; simpl; rewrite ?bool_decide_eq_true_2 by done; done.
  - rewrite app_cons. simpl. rewrite IH. apply orb_true_r.
Qed.

Ltac kept H := eapply keeps_run; [| |exact H]; [auto with keeps|done].

Section Job.

Variable job : string.
Hypothesis job_uuid : is_uuid job = true.

(** The directory of the job's OBJ files and the OBJ file itself. *)
Let obj_dir : string := Path.join OUTPUT_FOLDER job.
Let obj_file : string := Path.join obj_dir (job +:+ ".obj").

Lemma obj_name_simple : Str.contains "/" (job +:+ ".obj") = false.
Proof. by rewrite contains_app, uuid_no_slash. Qed.

Lemma obj_file_in_output : in_output obj_file.
Proof.
  apply join_in_output.
  - apply join_output. rewrite <-(app_empty_r job). by apply uuid_relative.
  - by apply uuid_relative.
Qed.

Lemma staged_not_obj_file x :
  Path.join UPLOAD_FOLDER (job +:+ x) ≠ obj_file.
Proof.
  intros E. apply (uploads_not_output obj_file); [|apply obj_file_in_output].
  rewrite <-E. apply join_uploads. by apply uuid_relative.
Qed.

Lemma convert_ok e s x s' :
  children_files obj_dir s →
  convert_glb_to_obj (Path.join OUTPUT_FOLDER (job +:+ ".glb")) OUTPUT_FOLDER e s
    = (Ok x, s') →
  job_converted job s'.
Proof.
  intros Hc. unfold convert_glb_to_obj.
  rewrite (base_name_job _ job_uuid). cbv zeta.
  fold obj_dir. fold obj_file.
  intros (? & s1 & H1 & H)%bind_ok.
  apply bind_ok in H as (? & s2 & H2 & H).
  apply bind_ok in H as (m2 & s3 & H3 & H).
  apply bind_ok in H as (? & s4 & H4 & H).
  apply bind_ok in H as (cs & s5 & H5 & H).
  apply bind_ok in H as (? & s6 & H6 & H).
  apply bind_ok in H as (? & s7 & H7 & H).
  injection H as _ <-. injection H3 as _ <-. injection H5 as _ <-.
  assert (Hc1 : children_files obj_dir s1) by kept H1.
  assert (Hc2 : children_files obj_dir s2) by kept H2.
  assert (Hd2 : dir_at obj_dir s2) by by eapply makedirs_ok.
  assert (Hk : ∀ I, keeps I
    (if is_file (m2 !! Path.join OUTPUT_FOLDER (job +:+ ".glb"))
     then lift_err (trimesh_load e)
     else raise (Exception "ValueError" (Path.join OUTPUT_FOLDER (job +:+ ".glb"))))).
  { intros I. keeps_go. }
  assert (Hc4 : children_files obj_dir s4) by (eapply keeps_run; [apply Hk|done|exact H4]).
  assert (Hd4 : dir_at obj_dir s4) by (eapply keeps_run; [apply Hk|done|exact H4]).
  assert (Hc6 : children_files obj_dir s6) by kept H6.
  assert (Hd6 : dir_at obj_dir s6) by kept H6.
  assert (Hf6 : file_at obj_file s6) by by eapply write_ok.
  unfold job_converted. fold obj_dir. fold obj_file.
  split_and!; kept H7.
Qed.

Lemma generate_obj_ok image params e s r s' :
  children_files obj_dir s →
  generate_and_respond image params "obj" job e s = (Ok r, s') →
  r = jsonify (obj_response job) 200 ∧ job_converted job s'.
Proof.
  intros Hc. unfold generate_and_respond. cbv zeta.
  intros (glb & s1 & H1 & H)%bind_ok.
  apply bind_ok in H as (? & s2 & H2 & H).
  rewrite bool_decide_eq_true_2 in H by done.
  apply bind_ok in H as (? & s3 & H3 & H). injection H as <- <-.
  split; [done|]. eapply convert_ok; [|done].
  assert (Hc1 : children_files obj_dir s1) by kept H1.
  kept H2.
Qed.

(** The download finds an OBJ file in the job's directory. *)
Lemma download_obj_ok s :
  job_converted job s →
  ∃ f, Str.endswith ".obj" f = true
    ∧ download_model job "obj" s
      = (Ok {| status := 200;
               payload := Attachment (Path.join obj_dir f) (job +:+ ".obj") |}, s).
Proof.
  intros (Hd & Hf & Hc). fold obj_dir in Hd, Hf, Hc. fold obj_file in Hf.
  unfold download_model, os_path_exists, os_listdir.
  simpl. fold obj_dir. rewrite !bind_run. simpl.
  unfold dir_at, file_at in *.
  destruct (fs s !! obj_dir) as [[]|] eqn:Ed; try done. simpl.
  rewrite !bind_run. simpl. rewrite Ed. simpl.
  set (names := omap _ _).
  assert (Hin : job +:+ ".obj" ∈ names).
  { apply list_elem_of_omap. exists obj_file. split.
    - destruct (fs s !! obj_file) as [n|] eqn:En; [|done].
      apply list_elem_of_fmap. exists (obj_file, n). split; [done|].
      by apply elem_of_map_to_list.
    - apply child_name_join; [apply obj_name_simple|].
      destruct (uuid_head _ job_uuid) as (c & r & -> & _). done. }
  destruct (find (Str.endswith ".obj") names) as [f|] eqn:Ef.
  - apply find_some in Ef as [Hf' He]. exists f. split; [done|].
    apply list_elem_of_In in Hf'.
    apply list_elem_of_omap in Hf' as (k & Hk & Hn).
    apply list_elem_of_fmap in Hk as ([k' n] & -> & Hk).
    apply elem_of_map_to_list in Hk. simpl in *.
    pose proof (Hc k' ltac:(by rewrite Hn) ltac:(by rewrite Hk)) as Hfile.
    apply child_name_Some in Hn as (-> & _).
    unfold send_file. rewrite bind_run. simpl.
    rewrite Hk in Hfile |- *. by destruct n.
  - eapply find_none in Ef; [|by apply list_elem_of_In].
    by rewrite endswith_app_self in Ef.
Qed.

End Job.

Lemma cleanup_keeps_converted job image :
  is_uuid job = true →
  image ≠ Path.join (Path.join OUTPUT_FOLDER job) (job +:+ ".obj") →
  keeps (job_converted job)
    (ex ← os_path_exists image ; if ex : bool then os_remove image else mret tt).
Proof.
  intros Hj Hne. unfold job_converted.
  pose proof (file_at_remove _ _ Hne).
  repeat apply keeps_and; keeps_go.
Qed.

Lemma upload_obj_ok req e m resp s' :
  is_uuid (uuid4 e) = true →
  children_files (Path.join OUTPUT_FOLDER (uuid4 e)) (initial m) →
  requested_format (PostGenerate req) = Some "obj" →
  generate_3d_model req e (initial m) = (Ok resp, s') →
  status resp = 200%nat →
  resp = jsonify (obj_response (uuid4 e)) 200 ∧ job_converted (uuid4 e) s'.
Proof.
  intros Hj Hc Hf. injection Hf as Hf. unfold generate_3d_model.
  destruct (files req !! "file") as [file|]; [|by intros [= <- <-]].
  destruct (bool_decide _); [by intros [= <- <-]|].
  destruct (negb _); [by intros [= <- <-]|].
  unfold generate_3d_model_job. cbv zeta. rewrite Hf.
  intros (? & s1 & H1 & H)%bind_ok Hs.
  apply bind_ok in H as (? & s2 & H2 & H).
  apply finally_ok in H as (s3 & Hb & Hcl).
  apply try_except_ok in Hb as [Hb|(msg & s4 & Hb)];
    [|injection Hb as <- <-; done].
  apply bind_ok in Hb as (params & s5 & H5 & Hb).
  assert (Hc1 : children_files (Path.join OUTPUT_FOLDER (uuid4 e)) s1) by kept H1.
  assert (Hc2 : children_files (Path.join OUTPUT_FOLDER (uuid4 e)) s2) by kept H2.
  assert (Hc5 : children_files (Path.join OUTPUT_FOLDER (uuid4 e)) s5) by kept H5.
  destruct (generate_obj_ok _ Hj _ _ _ _ _ _ Hc5 Hb) as [-> Hconv].
  split; [done|].
  eapply keeps_run; [|exact Hconv|exact Hcl].
  apply cleanup_keeps_converted; [done|]. by apply staged_not_obj_file.
Qed.

Lemma url_obj_ok data e m resp s' :
  is_uuid (uuid4 e) = true →
  children_files (Path.join OUTPUT_FOLDER (uuid4 e)) (initial m) →
  requested_format (PostGenerateUrl data) = Some "obj" →
  generate_from_url data e (initial m) = (Ok resp, s') →
  status resp = 200%nat →
  resp = jsonify (obj_response (uuid4 e)) 200 ∧ job_converted (uuid4 e) s'.
Proof.
  intros Hj Hc Hf. unfold generate_from_url.
  destruct data as [d|]; [|by intros [= <- <-]]. simpl in Hf.
  destruct (d !! "image_url") as [image_url|]; [|by intros [= <- <-]].
  cbv zeta. intros H Hs.
  apply finally_ok in H as (s3 & Hb & Hcl).
  apply try_except_ok in Hb as [Hb|(msg & s4 & Hb)];
    [|injection Hb as <- <-; done].
  apply bind_ok in Hb as (u & s1 & H1 & Hb).
  apply bind_ok in Hb as (? & s2 & H2 & Hb).
  apply bind_ok in Hb as (? & s5 & H5 & Hb).
  apply bind_ok in Hb as (fmt & s6 & H6 & Hb).
  destruct (default (PStr "glb") (d !! "output_format")) as [| | | |v| |];
    try done.
  injection Hf as Hf. injection H6 as <- <-. rewrite Hf in Hb.
  set (image := Path.join UPLOAD_FOLDER (uuid4 e +:+ "." +:+ staged_ext u)) in *.
  assert (Hc1 : children_files (Path.join OUTPUT_FOLDER (uuid4 e)) s1).
  { eapply keeps_run; [| |exact H1]; [|done]. unfold download_image. keeps_go. }
  assert (Hc2 : children_files (Path.join OUTPUT_FOLDER (uuid4 e)) s2) by kept H2.
  assert (Hc5 : children_files (Path.join OUTPUT_FOLDER (uuid4 e)) s5) by kept H5.
  assert (Hl2 : local_is image s2).
  { injection H2 as _ <-. done. }
  assert (Hl5 : local_is image s5) by kept H5.
  assert (Hl3 : local_is image s3) by kept Hb.
  destruct (generate_obj_ok _ Hj _ _ _ _ _ _ Hc5 Hb) as [-> Hconv].
  split; [done|].
  apply bind_ok in Hcl as (q & s7 & H7 & Hcl).
  unfold read_image_path in H7. rewrite Hl3 in H7. injection H7 as <- <-.
  eapply keeps_run; [|exact Hconv|exact Hcl].
  apply cleanup_keeps_converted; [done|]. by apply staged_not_obj_file.
Qed.

(** The download rule of the URL map takes a path made of a job id and a
    format apart. *)
Lemma route_get_download j f :
  j ≠ "" → f ≠ "" → Str.contains "/" j = false → Str.contains "/" f = false →
  route_get ("/api/download/" +:+ j +:+ "/" +:+ f) = Some (download_model j f).
Proof.
  intros Hj Hf Hsj Hsf. unfold route_get.
  assert (Hne : ∀ q, Str.startswith "/api/download/" q = false →
                     "/api/download/" +:+ j +:+ "/" +:+ f ≠ q).
  { intros q Hq E. by rewrite <-E in Hq. }
  rewrite !bool_decide_eq_false_2 by (apply Hne; reflexivity).
  change (Str.startswith "/api/download/" ("/api/download/" +:+ j +:+ "/" +:+ f))
    with true.
  change (Str.drop 14 ("/api/download/" +:+ j +:+ "/" +:+ f))
    with (j +:+ String "/" f).
  rewrite split_app_sep, !split_no_sep by done. simpl.
  by rewrite bool_decide_eq_true_2.
Qed.

(** C6. A generate request for the obj format, through either route, that
    succeeds answers with [job_id], [status] "completed", [glb_url] and
    [obj_url]; the OBJ file was exported into the subdirectory named after
    the base filename of the job's GLB, which is the job's directory; and a
    GET of the [obj_url] of the answer is dispatched to the download view,
    which returns, as an attachment, a file of that directory whose name
    ends in [.obj].  The job id is a fresh uuid: nothing exists under its
    directory before the request. *)
Theorem C6_obj_request r e m :
  is_uuid (uuid4 e) = true →
  map_Forall (λ k _, child_name (Path.join OUTPUT_FOLDER (uuid4 e)) k = None) m →
  requested_format r = Some "obj" →
  http_status (flask (generate r e (initial m)).1) = Some 200%nat →
  json_of (flask (generate r e (initial m)).1)
    = Some (<["obj_url" := PStr ("/api/download/" +:+ uuid4 e +:+ "/obj")]>
              {[ "job_id" := PStr (uuid4 e); "status" := PStr "completed";
                 "glb_url" := PStr ("/api/download/" +:+ uuid4 e +:+ "/glb") ]})
  ∧ Path.join OUTPUT_FOLDER
      (Path.splitext (Path.basename
         (Path.join OUTPUT_FOLDER (uuid4 e +:+ ".glb")))).1
    = Path.join OUTPUT_FOLDER (uuid4 e)
  ∧ ∃ view f,
      route_get ("/api/download/" +:+ uuid4 e +:+ "/obj") = Some view
      ∧ Str.endswith ".obj" f = true
      ∧ (view (generate r e (initial m)).2).1
        = Ok {| status := 200;
                payload := Attachment
                  (Path.join (Path.join OUTPUT_FOLDER (uuid4 e)) f)
                  (uuid4 e +:+ ".obj") |}.
Proof.
  intros Hj Hfresh Hf Hs.
  assert (Hc : children_files (Path.join OUTPUT_FOLDER (uuid4 e)) (initial m)).
  { intros k Hk [n Hn]. simpl in Hn. apply Hfresh in Hn.
    rewrite Hn in Hk. by destruct Hk. }
  destruct (generate r e (initial m)) as [[resp|[]] s'] eqn:Hrun;
    simpl in Hs; try done. injection Hs as Hs.
  assert (resp = jsonify (obj_response (uuid4 e)) 200
          ∧ job_converted (uuid4 e) s') as [-> Hconv].
  { destruct r as [req|data]; simpl in Hrun.
    - by eapply upload_obj_ok.
    - by eapply url_obj_ok. }
  split_and!; [done|by rewrite base_name_job|].
  destruct (download_obj_ok _ Hj _ Hconv) as (f & He & E).
  exists (download_model (uuid4 e) "obj"), f. split_and!; [|done|].
  - apply (route_get_download (uuid4 e) "obj"); [|done|by apply uuid_no_slash|done].
    by destruct (uuid_head _ Hj) as (c & r' & -> & _).
  - simpl. by rewrite E.
Qed.

(** * More of the service *)

(** ** Extensions *)

(** X1. Only what follows the last dot decides whether an upload is
    allowed, and its case does not matter: a name [x.e] with no dot in [e]
    is allowed iff [e], lowercased, is png, jpg, jpeg or webp. *)
Theorem allowed_file_last_extension x e :
  Str.contains "." e = false →
  allowed_file (x +:+ "." +:+ e)
  = bool_decide (Str.lower e ∈ ALLOWED_EXTENSIONS).
Proof.
  intros He. unfold allowed_file.
  change (x +:+ "." +:+ e) with (x +:+ String "." e).
  rewrite contains_app, rsplit1_app_sep by done. simpl.
  by rewrite orb_true_r.
Qed.

Lemma allowed_cases e :
  e ∈ ALLOWED_EXTENSIONS → e = "png" ∨ e = "jpg" ∨ e = "jpeg" ∨ e = "webp".
Proof.
  unfold ALLOWED_EXTENSIONS. rewrite !elem_of_union, !elem_of_singleton.
  intros [[[H|H]|H]|H]; auto.
Qed.

(** X2. On the URL route a query string after an allowed extension is cut
    off: the image of [base.e?q], with [e] allowed and no dot in [q], is
    staged with the extension [e]. *)
Theorem staged_ext_strips_query base e q :
  e ∈ ALLOWED_EXTENSIONS → Str.contains "." q = false →
  staged_ext (base +:+ "." +:+ e +:+ "?" +:+ q) = e.
Proof.
  intros He%allowed_cases Hq. unfold staged_ext, url_ext.
  change (base +:+ "." +:+ e +:+ "?" +:+ q)
    with (base +:+ String "." (e +:+ String "?" q)).
  assert (Hd : Str.contains "." (e +:+ String "?" q) = false).
  { rewrite contains_app. simpl. rewrite Hq.
    by destruct He as [->|[->|[->| ->]]]. }
  rewrite split_app_sep, last_app_nonempty by apply split_nonempty.
  rewrite (split_no_sep _ _ Hd). unfold Str.last. simpl.
  destruct He as [->|[->|[->| ->]]]; rewrite !app_cons; simpl;
    by rewrite bool_decide_eq_true_2
      by (refine (bool_decide_unpack _ _); vm_compute; exact I).
Qed.

(** ** Endpoints that only read *)

Lemma keeps_send_file I path name : keeps I (send_file path name).
Proof. unfold send_file. keeps_go. Qed.

Lemma keeps_download I job fmt : keeps I (download_model job fmt).
Proof.
  pose proof (keeps_send_file I). unfold download_model. keeps_go.
Qed.

Lemma keeps_collect_models I names : keeps I (collect_models names).
Proof. induction names; simpl; keeps_go. Qed.

Lemma keeps_list_models I : keeps I list_models.
Proof. pose proof (keeps_collect_models I). unfold list_models. keeps_go. Qed.

(** X4. The download and the listing endpoints only read: whatever they
    answer, and also when they raise, the filesystem is as it was and
    nothing was asked of the outside world. *)
Theorem read_only_endpoints job fmt s :
  (download_model job fmt s).2 = s ∧ (list_models s).2 = s.
Proof.
  split.
  - by apply (keeps_download (λ s', s' = s)).
  - by apply (keeps_list_models (λ s', s' = s)).
Qed.

(** ** The conversion *)

(** X5. When [convert_glb_to_obj] returns, the path it returns is that of
    [base.obj] in the subdirectory [base] of the output directory, [base]
    being the GLB's name without its extension; that subdirectory exists,
    the OBJ file exists, and the GLB is still where it was. *)
Theorem convert_exports_obj glb out e s p s' :
  convert_glb_to_obj glb out e s = (Ok p, s') →
  p = Path.join (Path.join out (Path.splitext (Path.basename glb)).1)
        ((Path.splitext (Path.basename glb)).1 +:+ ".obj")
  ∧ dir_at (Path.join out (Path.splitext (Path.basename glb)).1) s'
  ∧ file_at p s'
  ∧ file_at glb s'.
Proof.
  unfold convert_glb_to_obj. cbv zeta.
  set (base := (Path.splitext (Path.basename glb)).1).
  intros (? & s1 & H1 & H)%bind_ok.
  apply bind_ok in H as (? & s2 & H2 & H).
  apply bind_ok in H as (m2 & s3 & H3 & H).
  apply bind_ok in H as (? & s4 & H4 & H).
  apply bind_ok in H as (cs & s5 & H5 & H).
  apply bind_ok in H as (? & s6 & H6 & H).
  apply bind_ok in H as (? & s7 & H7 & H).
  injection H as <- <-. injection H3 as <- <-. injection H5 as _ <-.
  assert (Hd2 : dir_at (Path.join out base) s2) by by eapply makedirs_ok.
  assert (is_file (fs s2 !! glb) = true ∧ s4 = s2) as [Hg ->].
  { destruct (is_file (fs s2 !! glb)); [|done]. split; [done|].
    destruct (trimesh_load e); [done|]. by injection H4 as <-. }
  assert (Hd6 : dir_at (Path.join out base) s6) by kept H6.
  assert (Hg6 : file_at glb s6) by kept H6.
  assert (Hf6 : file_at (Path.join (Path.join out base) (base +:+ ".obj")) s6)
    by by eapply write_ok.
  split_and!; [done|kept H7..].
Qed.

(** ** Failures once the image is staged *)

Lemma cleanup_ok p s :
  file_at p s →
  (ex ← os_path_exists p ; if ex : bool then os_remove p else mret tt) s
  = (Ok tt, {| fs := delete p (fs s); log := log s; image_path := image_path s |}).
Proof.
  unfold file_at. intros H. rewrite bind_run. simpl.
  destruct (fs s !! p) as [[]|] eqn:E; [|done..].
  rewrite bool_decide_eq_true_2 by done.
  unfold os_remove. rewrite bind_run. simpl. by rewrite E.
Qed.

Lemma try_except_answered {A} (body : M A) (h : string → A) s :
  match (try_except body (λ msg, mret (h msg)) s).1 with
  | Ok a => (body s).1 = Ok a ∨ ∃ msg, a = h msg
  | Raise (Exception _ _) => False
  | Raise (BaseException _ _) => True
  end.
Proof.
  unfold try_except. destruct (body s) as [[a|[c msg|c msg]] s1]; simpl; eauto.
Qed.

Lemma generate_status image params fmt job e :
  yields (λ r, status r = 200%nat) (generate_and_respond image params fmt job e).
Proof. unfold generate_and_respond. yields_go; done. Qed.

Lemma staged_upload req e m p :
  staged_at (PostGenerate req) e m = Some p →
  ∃ file, files req !! "file" = Some file
    ∧ p = Path.join UPLOAD_FOLDER (uuid4 e +:+ "_" +:+ secure_filename (filename file))
    ∧ generate_3d_model req e (initial m)
      = finally
          (try_except
             (params ← upload_params (form req) ;
              generate_and_respond p params
                (Str.lower (default "glb" (form req !! "output_format")))
                (uuid4 e) e)
             (λ msg, mret (failure_answer (PostGenerate req) msg)))
          (ex ← os_path_exists p ; if ex : bool then os_remove p else mret tt)
          {| fs := <[p := File (clock e)]> m; log := [Wrote p]; image_path := None |}.
Proof.
  simpl. destruct (files req !! "file") as [file|] eqn:Hf; simpl; [|done].
  destruct (bool_decide (filename file = "")) eqn:Hn; simpl; [done|].
  destruct (allowed_file (filename file)) eqn:Ha; simpl; [|done].
  destruct (bool_decide (file_save e = None)) eqn:Hs; simpl; [|done].
  apply bool_decide_eq_true in Hs.
  destruct (is_dir (m !! _)) eqn:Hd; simpl; [done|].
  intros [= <-]. exists file. split_and!; [done..|].
  unfold generate_3d_model. rewrite Hf, Hn, Ha. simpl.
  unfold generate_3d_model_job. rewrite Hs. cbv zeta.
  rewrite (bind_run_ok _ _ _ tt (initial m)) by done.
  by erewrite bind_run_ok by (by apply write_file_ok).
Qed.

Lemma staged_url data e m p :
  staged_at (PostGenerateUrl data) e m = Some p →
  ∃ d u, data = Some d ∧ d !! "image_url" = Some (PStr u)
    ∧ p = Path.join UPLOAD_FOLDER (uuid4 e +:+ "." +:+ staged_ext u)
    ∧ generate_from_url data e (initial m)
      = finally
          (try_except
             (output_format ←
                py_lower (default (PStr "glb") (d !! "output_format")) ;
              generate_and_respond p (url_params d) output_format (uuid4 e) e)
             (λ msg, mret (failure_answer (PostGenerateUrl data) msg)))
          (q ← read_image_path ; ex ← os_path_exists q ;
           if ex : bool then os_remove q else mret tt)
          {| fs := <[p := File (clock e)]> m;
             log := [HttpGet (PStr u); Wrote p]; image_path := Some p |}.
Proof.
  simpl. destruct data as [d|]; simpl; [|done].
  destruct (d !! "image_url") as [[| | | |u| |]|] eqn:Hu; simpl; try done.
  destruct (bool_decide (requests_get e = None)) eqn:Hs; simpl; [|done].
  apply bool_decide_eq_true in Hs.
  destruct (is_dir (m !! _)) eqn:Hd; simpl; [done|].
  intros [= <-]. exists d, u. split_and!; [done..|].
  unfold generate_from_url. rewrite ?Hu. cbv zeta.
  apply finally_eq.
  erewrite try_except_bind_ok by (by apply download_image_ok).
  erewrite try_except_bind_ok by done.
  by erewrite try_except_bind_ok by (by apply write_file_ok).
Qed.

Lemma answered_after_cleanup {A} (Q : A → Prop) (body : M A) (h : string → A) p s :
  keeps (file_at p) body → yields Q body → file_at p s →
  match (finally (try_except body (λ msg, mret (h msg)))
           (ex ← os_path_exists p ; if ex : bool then os_remove p else mret tt)
           s).1 with
  | Ok a => Q a ∨ ∃ msg, a = h msg
  | Raise (Exception _ _) => False
  | Raise (BaseException _ _) => True
  end.
Proof.
  intros Hk Hy Hs. unfold finally.
  pose proof (try_except_answered body h s) as Ha.
  assert (Hf : file_at p (try_except body (λ msg, mret (h msg)) s).2).
  { apply keeps_try_except; [done|intros; apply keeps_ret|done]. }
  destruct (try_except _ _ s) as [res s2]. simpl in *.
  rewrite (cleanup_ok _ _ Hf). destruct res as [a|[]]; [|done..].
  destruct Ha as [Ha|Ha]; [left|by right].
  destruct (body s) as [r' s'] eqn:Hb. simpl in Ha. subst r'. by eapply Hy.
Qed.

Lemma answered_after_local_cleanup {A} (Q : A → Prop) (body : M A)
    (h : string → A) p s :
  keeps (file_at p) body → keeps (local_is p) body → yields Q body →
  file_at p s → local_is p s →
  match (finally (try_except body (λ msg, mret (h msg)))
           (q ← read_image_path ; ex ← os_path_exists q ;
            if ex : bool then os_remove q else mret tt)
           s).1 with
  | Ok a => Q a ∨ ∃ msg, a = h msg
  | Raise (Exception _ _) => False
  | Raise (BaseException _ _) => True
  end.
Proof.
  intros Hk Hlk Hy Hs Hls. unfold finally.
  pose proof (try_except_answered body h s) as Ha.
  assert (Hf : file_at p (try_except body (λ msg, mret (h msg)) s).2).
  { apply keeps_try_except; [done|intros; apply keeps_ret|done]. }
  assert (Hl : local_is p (try_except body (λ msg, mret (h msg)) s).2).
  { apply keeps_try_except; [done|intros; apply keeps_ret|done]. }
  destruct (try_except _ _ s) as [res s2]. simpl in *.
  rewrite bind_run. unfold read_image_path at 1. rewrite Hl.
  rewrite (cleanup_ok _ _ Hf). destruct res as [a|[]]; [|done..].
  destruct Ha as [Ha|Ha]; [left|by right].
  destruct (body s) as [r' s'] eqn:Hb. simpl in Ha. subst r'. by eapply Hy.
Qed.

(** X6. Once the input image is staged, no [Exception] escapes a generate
    view, on either route: the answer is the success answer with status
    200, or the JSON 500 of the route carrying the text of the exception
    (with the fallback link on the upload route). *)
Theorem exceptions_answered_once_staged r e m p :
  staged_at r e m = Some p →
  match (generate r e (initial m)).1 with
  | Ok resp => status resp = 200%nat ∨ ∃ msg, resp = failure_answer r msg
  | Raise (Exception _ _) => False
  | Raise (BaseException _ _) => True
  end.
Proof.
  intros Hst. destruct r as [req|data].
  - destruct (staged_upload _ _ _ _ Hst) as (file & Hf & Hp & E).
    unfold generate. rewrite E.
    apply (answered_after_cleanup (λ r, status r = 200%nat)).
    + apply keeps_bind; [apply keeps_upload_params|]. intros. auto with keeps.
    + apply yields_bind. intros. apply generate_status.
    + unfold file_at. simpl. by rewrite lookup_insert_eq.
  - destruct (staged_url _ _ _ _ Hst) as (d & u & Hd & Hu & Hp & E).
    unfold generate. rewrite E.
    apply (answered_after_local_cleanup (λ r, status r = 200%nat) _ _ p);
      subst p.
    + apply keeps_bind; [apply keeps_py_lower|]. intros. auto with keeps.
    + apply keeps_bind; [apply keeps_py_lower|]. intros. auto with keeps.
    + apply yields_bind. intros. apply generate_status.
    + unfold file_at. simpl. by rewrite lookup_insert_eq.
    + done.
Qed.

Lemma upload_params_pure f s :
  upload_params f s = ((upload_params f (initial ∅)).1, s).
Proof.
  unfold upload_params, form_int, form_float. rewrite !bind_run.
  destruct (f !! "steps") as [v1|]; [destruct (py_int v1)|]; simpl; try done;
    rewrite !bind_run;
    (destruct (f !! "guidance_scale") as [v2|]; [destruct (py_float v2)|]);
    simpl; try done; rewrite !bind_run;
    (destruct (f !! "seed") as [v3|]; [destruct (py_int v3)|]); simpl; done.
Qed.

Lemma upload_params_bad f s :
  (∃ v, f !! "steps" = Some v ∧ py_int v = None)
  ∨ (∃ v, f !! "guidance_scale" = Some v ∧ py_float v = None)
  ∨ (∃ v, f !! "seed" = Some v ∧ py_int v = None) →
  ∃ msg, (upload_params f s).1 = Raise (Exception "ValueError" msg).
Proof.
  intros H. unfold upload_params, form_int, form_float. rewrite !bind_run.
  destruct (f !! "steps") as [v1|] eqn:E1; [destruct (py_int v1) eqn:P1|];
    simpl; eauto; rewrite !bind_run;
    (destruct (f !! "guidance_scale") as [v2|] eqn:E2;
       [destruct (py_float v2) eqn:P2|]);
    simpl; eauto; rewrite !bind_run;
    (destruct (f !! "seed") as [v3|] eqn:E3; [destruct (py_int v3) eqn:P3|]);
    simpl; eauto; exfalso;
    destruct H as [(v & Hv & Hp)|[(v & Hv & Hp)|(v & Hv & Hp)]]; congruence.
Qed.

(** X7. A number field that does not parse does not make the upload a
    client error: when [int] rejects the [steps] or the [seed] field, or
    [float] the [guidance_scale] field, the image is staged, the remote
    model is not called, nothing else is written, and the answer is the
    JSON 500 of the [except] clause, with the fallback link. *)
Theorem upload_bad_number req e m p :
  staged_at (PostGenerate req) e m = Some p →
  (∃ v, form req !! "steps" = Some v ∧ py_int v = None)
  ∨ (∃ v, form req !! "guidance_scale" = Some v ∧ py_float v = None)
  ∨ (∃ v, form req !! "seed" = Some v ∧ py_int v = None) →
  ∃ msg,
    (generate_3d_model req e (initial m)).1
      = Ok (failure_answer (PostGenerate req) msg)
    ∧ log (generate_3d_model req e (initial m)).2 = [Wrote p].
Proof.
  intros Hst Hbad.
  destruct (staged_upload _ _ _ _ Hst) as (file & Hf & _ & ->).
  destruct (upload_params_bad (form req) (initial ∅) Hbad) as [msg Hmsg].
  exists msg.
  unfold finally, try_except. rewrite bind_run, upload_params_pure.
  rewrite Hmsg. simpl.
  rewrite cleanup_ok; [done|]. unfold file_at. simpl. by rewrite lookup_insert_eq.
Qed.

(** X8. When the remote call raises an [Exception] on the upload route, the
    answer is the JSON 500 with the text of that exception and the fallback
    link, the remote model was called once, and the filesystem is exactly as
    it was before the request: the staged image is gone and no output was
    written. *)
Theorem upload_remote_failure req e m p params cls msg :
  staged_at (PostGenerate req) e m = Some p →
  m !! p = None →
  (upload_params (form req) (initial ∅)).1 = Ok params →
  client_predict e = Raise (Exception cls msg) →
  generate_3d_model req e (initial m)
  = (Ok (failure_answer (PostGenerate req) msg),
     {| fs := m; log := [Wrote p; RemoteCall p (predict_args_of params)];
        image_path := None |}).
Proof.
  intros Hst Hm Hp Hc.
  destruct (staged_upload _ _ _ _ Hst) as (file & Hf & _ & ->).
  unfold finally, try_except. rewrite bind_run, upload_params_pure, Hp.
  unfold generate_and_respond, fetch_3d_from_image. rewrite !bind_run. simpl.
  rewrite Hc. simpl. rewrite cleanup_ok.
  - simpl. by rewrite delete_insert_id.
  - unfold file_at. simpl. by rewrite lookup_insert_eq.
Qed.

(** ** One remote call at most *)

Lemma remote_calls_app l l' : remote_calls (l ++ l') = (remote_calls l + remote_calls l')%nat.
Proof. unfold remote_calls. by rewrite List.filter_app, List.length_app. Qed.

Lemma called_emit n ev :
  is_remote_call ev = false → keeps (called_at_most n) (emit ev).
Proof.
  intros H [m l ip]. unfold called_at_most. simpl.
  rewrite remote_calls_app.
  assert (remote_calls [ev] = 0%nat) as ->; [|lia].
  unfold remote_calls. simpl. by rewrite H.
Qed.

Lemma called_set_fs n m : keeps (called_at_most n) (set_fs m).
Proof. by intros [m' l ip]. Qed.

Lemma called_assign n q : keeps (called_at_most n) (assign_image_path q).
Proof. by intros [m l ip]. Qed.

Hint Resolve called_set_fs called_assign : keeps.

Ltac called_go :=
  cbv zeta;
  repeat first
    [ match goal with
      | |- keeps _ (mbind _ _) => apply keeps_bind; [|intros ?; cbv zeta]
      | |- keeps _ (try_except _ _) => apply keeps_try_except; [|intros ?]
      | |- keeps _ (finally _ _) => apply keeps_finally
      | |- keeps _ (if ?b then _ else _) => destruct b
      | |- keeps _ (match ?x with _ => _ end) => destruct x
      end
    | solve [eauto with keeps]
    | solve [apply called_emit; done] ].

Lemma called_write n q t : keeps (called_at_most n) (write_file q t).
Proof. unfold write_file. called_go. Qed.

Lemma called_store n q t : keeps (called_at_most n) (remote_store q t).
Proof. unfold remote_store. called_go. Qed.

Lemma called_makedirs n q t : keeps (called_at_most n) (os_makedirs q t).
Proof. unfold os_makedirs. called_go. Qed.

Lemma called_remove n q : keeps (called_at_most n) (os_remove q).
Proof. unfold os_remove. called_go. Qed.

Hint Resolve called_write called_store called_makedirs called_remove : keeps.

Lemma called_write_files n d names t :
  keeps (called_at_most n) (write_files d names t).
Proof. induction names; simpl; called_go. Qed.

Hint Resolve called_write_files : keeps.

Lemma called_copy n src dst t : keeps (called_at_most n) (shutil_copy src dst t).
Proof. unfold shutil_copy. called_go. Qed.

Lemma called_convert n glb out e :
  keeps (called_at_most n) (convert_glb_to_obj glb out e).
Proof. unfold convert_glb_to_obj. called_go. Qed.

Hint Resolve called_copy called_convert : keeps.

Lemma leads_keeps {A} (I J : state → Prop) (m : M A) :
  keeps I m → (∀ s, I s → J s) → leads I J m.
Proof. intros H HJ s Hs. by apply HJ, H. Qed.

Lemma leads_bind {A B} (I J : state → Prop) (m : M A) (k : A → M B) :
  leads I J m → (∀ a, keeps J (k a)) → leads I J (m ≫= k).
Proof.
  intros Hm Hk s Hs. rewrite bind_run. specialize (Hm s Hs).
  destruct (m s) as [[a|x] s1]; [by apply Hk|done].
Qed.

Lemma leads_after {A B} (I J : state → Prop) (m : M A) (k : A → M B) :
  keeps I m → (∀ s, I s → J s) → (∀ a, leads I J (k a)) → leads I J (m ≫= k).
Proof.
  intros Hm HJ Hk s Hs. rewrite bind_run. specialize (Hm s Hs).
  destruct (m s) as [[a|x] s1]; [by apply Hk|by apply HJ].
Qed.

Lemma leads_try_except {A} (I J : state → Prop) (m : M A) h :
  leads I J m → (∀ msg, keeps J (h msg)) → leads I J (try_except m h).
Proof.
  intros Hm Hh s Hs. unfold try_except. specialize (Hm s Hs).
  destruct (m s) as [[a|[c msg|c msg]] s1]; [done| |done]. by apply Hh.
Qed.

Lemma leads_finally {A} (I J : state → Prop) (m : M A) c :
  leads I J m → keeps J c → leads I J (finally m c).
Proof.
  intros Hm Hc s Hs. unfold finally. specialize (Hm s Hs).
  destruct (m s) as [r s1]. specialize (Hc s1 Hm).
  by destruct (c s1) as [[[]|x] s2].
Qed.

Lemma called_more s : called_at_most 0 s → called_at_most 1 s.
Proof. unfold called_at_most. lia. Qed.

Lemma called_fetch image params e :
  leads (called_at_most 0) (called_at_most 1) (fetch_3d_from_image image params e).
Proof.
  unfold fetch_3d_from_image. apply leads_bind; [|intros; called_go].
  intros [m l ip]. unfold called_at_most. simpl.
  rewrite remote_calls_app. unfold remote_calls at 3. simpl. lia.
Qed.

Lemma called_generate image params fmt job e :
  leads (called_at_most 0) (called_at_most 1)
    (generate_and_respond image params fmt job e).
Proof.
  unfold generate_and_respond. apply leads_bind; [apply called_fetch|].
  intros. called_go.
Qed.

(** X9. No retry: a generate request, through either route and whatever
    its outcome, calls the remote model at most once. *)
Theorem at_most_one_remote_call r e m :
  (remote_calls (log (generate r e (initial m)).2) ≤ 1)%nat.
Proof.
  assert (H : leads (called_at_most 0) (called_at_most 1) (generate r e)).
  { destruct r as [req|data]; simpl.
    - unfold generate_3d_model, generate_3d_model_job.
      destruct (files req !! "file") as [file|];
        [|apply leads_keeps; [apply keeps_ret|apply called_more]].
      destruct (bool_decide _);
        [apply leads_keeps; [apply keeps_ret|apply called_more]|].
      destruct (negb _);
        [apply leads_keeps; [apply keeps_ret|apply called_more]|].
      cbv zeta.
      apply leads_after; [apply keeps_lift_err|apply called_more|intros _].
      apply leads_after; [apply called_write|apply called_more|intros _].
      apply leads_finally; [|called_go].
      apply leads_try_except; [|intros; apply keeps_ret].
      apply leads_after; [apply keeps_upload_params|apply called_more|intros].
      apply called_generate.
    - unfold generate_from_url.
      destruct data as [d|];
        [|apply leads_keeps; [apply keeps_ret|apply called_more]].
      destruct (d !! "image_url") as [image_url|];
        [|apply leads_keeps; [apply keeps_ret|apply called_more]].
      cbv zeta. apply leads_finally; [|called_go].
      apply leads_try_except; [|intros; apply keeps_ret].
      apply leads_after; [unfold download_image; called_go|apply called_more|intros].
      apply leads_after; [apply called_assign|apply called_more|intros _].
      apply leads_after; [apply called_write|apply called_more|intros _].
      apply leads_after; [apply keeps_py_lower|apply called_more|intros].
      apply called_generate. }
  apply (H (initial m)). unfold called_at_most. simpl. done.
Qed.

(** ** What a request wrote stays *)

Ltac walk tac :=
  cbv zeta;
  repeat first
    [ match goal with
      | |- keeps _ (mbind _ _) => apply keeps_bind; [|intros ?; cbv zeta]
      | |- keeps _ (try_except _ _) => apply keeps_try_except; [|intros ?]
      | |- keeps _ (finally _ _) => apply keeps_finally
      | |- keeps _ (if ?b then _ else _) => destruct b
      | |- keeps _ (match ?x with _ => _ end) => destruct x
      end
    | solve [eauto with keeps]
    | solve [tac] ].

Lemma local_sat_set_fs P m : keeps (local_sat P) (set_fs m).
Proof. by intros [m' l ip]. Qed.

Lemma local_sat_emit P ev : keeps (local_sat P) (emit ev).
Proof. by intros [m l ip]. Qed.

Hint Resolve local_sat_set_fs local_sat_emit : keeps.

Lemma local_sat_write P q t : keeps (local_sat P) (write_file q t).
Proof. unfold write_file. keeps_go. Qed.

Lemma local_sat_store P q t : keeps (local_sat P) (remote_store q t).
Proof. unfold remote_store. keeps_go. Qed.

Lemma local_sat_makedirs P q t : keeps (local_sat P) (os_makedirs q t).
Proof. unfold os_makedirs. keeps_go. Qed.

Lemma local_sat_remove P q : keeps (local_sat P) (os_remove q).
Proof. unfold os_remove. keeps_go. Qed.

Hint Resolve local_sat_write local_sat_store local_sat_makedirs
  local_sat_remove : keeps.

Lemma local_sat_write_files P d names t : keeps (local_sat P) (write_files d names t).
Proof. induction names; simpl; keeps_go. Qed.

Hint Resolve local_sat_write_files : keeps.

Lemma local_sat_generate P image params fmt job e :
  keeps (local_sat P) (generate_and_respond image params fmt job e).
Proof.
  unfold generate_and_respond, fetch_3d_from_image, shutil_copy,
    convert_glb_to_obj. keeps_go.
Qed.

Lemma wrote_kept_write p q t : keeps (wrote_kept p) (write_file q t).
Proof.
  intros [m l ip]. unfold wrote_kept, file_at. simpl. intros HI. prim.
  destruct (is_dir (m !! q)); simpl; [done|].
  destruct (decide (q = p)) as [->|Hq].
  - by rewrite lookup_insert_eq.
  - rewrite lookup_insert_ne by done. intros Hin. apply HI.
    apply elem_of_app in Hin as [?|Hin]; [done|].
    apply list_elem_of_singleton in Hin. congruence.
Qed.

Lemma wrote_kept_store p q t : keeps (wrote_kept p) (remote_store q t).
Proof.
  intros [m l ip]. unfold wrote_kept, file_at. simpl. intros HI. prim.
  destruct (is_dir (m !! q)); simpl; [done|].
  destruct (decide (q = p)) as [->|Hq].
  - by rewrite lookup_insert_eq.
  - by rewrite lookup_insert_ne.
Qed.

Lemma wrote_kept_makedirs p q t : keeps (wrote_kept p) (os_makedirs q t).
Proof.
  intros [m l ip]. unfold wrote_kept, file_at. simpl. intros HI. prim.
  destruct (m !! q) as [[]|] eqn:E; simpl; [done..|].
  destruct (decide (q = p)) as [->|Hq].
  - intros Hin. specialize (HI Hin). by rewrite E in HI.
  - by rewrite lookup_insert_ne.
Qed.

Lemma wrote_kept_remove p q : q ≠ p → keeps (wrote_kept p) (os_remove q).
Proof.
  intros Hq [m l ip]. unfold wrote_kept, file_at. simpl. intros HI. prim.
  destruct (m !! q) as [[]|] eqn:E; simpl; [|done..].
  by rewrite lookup_delete_ne.
Qed.

Lemma wrote_kept_emit p ev : ev ≠ Wrote p → keeps (wrote_kept p) (emit ev).
Proof.
  intros Hev [m l ip]. unfold wrote_kept, file_at. simpl. intros HI Hin.
  apply HI. apply elem_of_app in Hin as [?|Hin]; [done|].
  apply list_elem_of_singleton in Hin. congruence.
Qed.

Lemma wrote_kept_assign p q : keeps (wrote_kept p) (assign_image_path q).
Proof. by intros [m l ip]. Qed.

Hint Resolve wrote_kept_write wrote_kept_store wrote_kept_makedirs
  wrote_kept_remove wrote_kept_assign : keeps.

Lemma wrote_kept_write_files p d names t :
  keeps (wrote_kept p) (write_files d names t).
Proof. induction names; simpl; keeps_go. Qed.

Hint Resolve wrote_kept_write_files : keeps.

Lemma wrote_kept_generate p image params fmt job e :
  keeps (wrote_kept p) (generate_and_respond image params fmt job e).
Proof.
  unfold generate_and_respond, fetch_3d_from_image, shutil_copy,
    convert_glb_to_obj. walk ltac:(apply wrote_kept_emit; done).
Qed.

Lemma download_image_yields image_url e :
  yields (λ u, image_url = PStr u) (download_image image_url e).
Proof.
  intros s u s'. unfold download_image.
  intros (? & s1 & _ & H)%bind_ok. destruct image_url; try done.
  apply bind_ok in H as (? & ? & _ & H). by injection H as <- _.
Qed.

(** The [finally] block of the URL route removes what the local names. *)
Lemma wrote_kept_local_cleanup p :
  keeps (λ s, wrote_kept p s ∧ local_sat (λ o, o ≠ Some p) s)
    (q ← read_image_path ; ex ← os_path_exists q ;
     if ex : bool then os_remove q else mret tt).
Proof.
  intros s [Hw Hl]. rewrite bind_run. unfold read_image_path.
  unfold local_sat in Hl. destruct (image_path s) as [q|] eqn:Eq;
    [|simpl; split; [done|]; unfold local_sat; by rewrite Eq].
  assert (Hq : q ≠ p) by congruence.
  assert (Hk : keeps (λ s, wrote_kept p s ∧ local_sat (λ o, o ≠ Some p) s)
            (ex ← os_path_exists q ; if ex : bool then os_remove q else mret tt)).
  { apply keeps_and; keeps_go. }
  apply Hk. split; [done|]. unfold local_sat. by rewrite Eq.
Qed.

(** X10. Nothing is rolled back: apart from the staged input image, every
    file a generate request wrote is still a file when the request is over,
    whether it succeeded, answered an error or raised. *)
Theorem written_files_persist r e m p :
  staging_path r e ≠ Some p →
  Wrote p ∈ log (generate r e (initial m)).2 →
  is_file (fs (generate r e (initial m)).2 !! p) = true.
Proof.
  intros Hp.
  assert (H : keeps (λ s, wrote_kept p s ∧ local_sat (λ o, o ≠ Some p) s)
                (generate r e)).
  { destruct r as [req|data]; simpl in *.
    - unfold generate_3d_model, generate_3d_model_job.
      destruct (files req !! "file") as [file|]; [|apply keeps_ret].
      simpl in Hp.
      assert (Hne : Path.join UPLOAD_FOLDER
        (uuid4 e +:+ "_" +:+ secure_filename (filename file)) ≠ p) by congruence.
      pose proof (wrote_kept_generate p). pose proof (local_sat_generate).
      apply keeps_and; keeps_go.
    - unfold generate_from_url.
      destruct data as [d|]; [|apply keeps_ret]. simpl in Hp.
      destruct (d !! "image_url") as [image_url|]; [|apply keeps_ret].
      cbv zeta. apply keeps_finally; [|apply wrote_kept_local_cleanup].
      apply keeps_try_except; [|intros; apply keeps_ret].
      eapply keeps_bind_yields; [|apply download_image_yields|].
      { unfold download_image. apply keeps_and;
          walk ltac:(apply wrote_kept_emit; done). }
      intros u ->. simpl in Hp.
      assert (Hne : Path.join UPLOAD_FOLDER (uuid4 e +:+ "." +:+ staged_ext u) ≠ p)
        by congruence.
      pose proof (wrote_kept_generate p). pose proof (local_sat_generate).
      apply keeps_bind; [|intros _].
      { apply keeps_and; [apply wrote_kept_assign|].
        intros [m' l ip] _. unfold local_sat. simpl. congruence. }
      apply keeps_and; keeps_go. }
  intros Hin. apply (H (initial m)); [|done]. split; [|done].
  unfold wrote_kept. simpl. by intros ?%elem_of_nil.
Qed.

(** ** From a finished job to its download and its listing *)

Lemma not_dir_at_write p q t : keeps (not_dir_at p) (write_file q t).
Proof.
  intros [m l ip]. unfold not_dir_at. simpl. intros HI. prim.
  destruct (is_dir (m !! q)); simpl; [done|].
  destruct (decide (q = p)) as [->|]; by simplify_map_eq.
Qed.

Lemma not_dir_at_store p q t : keeps (not_dir_at p) (remote_store q t).
Proof.
  intros [m l ip]. unfold not_dir_at. simpl. intros HI. prim.
  destruct (is_dir (m !! q)); simpl; [done|].
  destruct (decide (q = p)) as [->|]; by simplify_map_eq.
Qed.

Lemma not_dir_at_emit p ev : keeps (not_dir_at p) (emit ev).
Proof. by intros [m l ip]. Qed.

Lemma not_dir_at_assign p q : keeps (not_dir_at p) (assign_image_path q).
Proof. by intros [m l ip]. Qed.

Hint Resolve not_dir_at_write not_dir_at_store not_dir_at_emit
  not_dir_at_assign : keeps.

Lemma not_dir_at_fetch p image params e :
  keeps (not_dir_at p) (fetch_3d_from_image image params e).
Proof. unfold fetch_3d_from_image. keeps_go. Qed.

Lemma copy_ok src dst t s a s' :
  not_dir_at dst s → shutil_copy src dst t s = (Ok a, s') → file_at dst s'.
Proof.
  unfold not_dir_at, shutil_copy. intros Hd. rewrite bind_run. simpl.
  rewrite Hd. destruct (negb _); [done|]. destruct (bool_decide _); [done|].
  apply write_ok.
Qed.

Lemma generate_glb_written image params fmt job e s r s' :
  not_dir_at (Path.join OUTPUT_FOLDER (job +:+ ".glb")) s →
  generate_and_respond image params fmt job e s = (Ok r, s') →
  file_at (Path.join OUTPUT_FOLDER (job +:+ ".glb")) s'.
Proof.
  intros Hd. unfold generate_and_respond. cbv zeta.
  intros (glb & s1 & H1 & H)%bind_ok.
  apply bind_ok in H as (? & s2 & H2 & H).
  assert (Hd1 : not_dir_at (Path.join OUTPUT_FOLDER (job +:+ ".glb")) s1).
  { eapply keeps_run; [apply not_dir_at_fetch|done|exact H1]. }
  pose proof (copy_ok _ _ _ _ _ _ Hd1 H2) as Hf.
  destruct (bool_decide (fmt = "obj")).
  - apply bind_ok in H as (? & s3 & H3 & H). injection H as _ <-. kept H3.
  - by injection H as _ <-.
Qed.

Lemma staged_not_glb job x :
  is_uuid job = true →
  Path.join UPLOAD_FOLDER (job +:+ x) ≠ Path.join OUTPUT_FOLDER (job +:+ ".glb").
Proof.
  intros Hj E. apply (uploads_not_output (Path.join OUTPUT_FOLDER (job +:+ ".glb"))).
  - rewrite <-E. apply join_uploads. by apply uuid_relative.
  - apply join_output. by apply uuid_relative.
Qed.

Lemma upload_glb_ok req e m resp s' :
  is_uuid (uuid4 e) = true →
  not_dir_at (Path.join OUTPUT_FOLDER (uuid4 e +:+ ".glb")) (initial m) →
  generate_3d_model req e (initial m) = (Ok resp, s') →
  status resp = 200%nat →
  file_at (Path.join OUTPUT_FOLDER (uuid4 e +:+ ".glb")) s'.
Proof.
  intros Hj Hd. unfold generate_3d_model.
  destruct (files req !! "file") as [file|]; [|by intros [= <- <-]].
  destruct (bool_decide _); [by intros [= <- <-]|].
  destruct (negb _); [by intros [= <- <-]|].
  unfold generate_3d_model_job. cbv zeta.
  intros (? & s1 & H1 & H)%bind_ok Hs.
  apply bind_ok in H as (? & s2 & H2 & H).
  apply finally_ok in H as (s3 & Hb & Hcl).
  apply try_except_ok in Hb as [Hb|(msg & s4 & Hb)];
    [|injection Hb as <- <-; done].
  apply bind_ok in Hb as (params & s5 & H5 & Hb).
  assert (Hd1 : not_dir_at (Path.join OUTPUT_FOLDER (uuid4 e +:+ ".glb")) s1)
    by kept H1.
  assert (Hd2 : not_dir_at (Path.join OUTPUT_FOLDER (uuid4 e +:+ ".glb")) s2)
    by kept H2.
  assert (Hd5 : not_dir_at (Path.join OUTPUT_FOLDER (uuid4 e +:+ ".glb")) s5)
    by kept H5.
  pose proof (generate_glb_written _ _ _ _ _ _ _ _ Hd5 Hb) as Hf.
  pose proof (file_at_remove _ _ (staged_not_glb (uuid4 e)
    ("_" +:+ secure_filename (filename file)) Hj)).
  eapply keeps_run; [|exact Hf|exact Hcl]. keeps_go.
Qed.

Lemma url_glb_ok data e m resp s' :
  is_uuid (uuid4 e) = true →
  not_dir_at (Path.join OUTPUT_FOLDER (uuid4 e +:+ ".glb")) (initial m) →
  generate_from_url data e (initial m) = (Ok resp, s') →
  status resp = 200%nat →
  file_at (Path.join OUTPUT_FOLDER (uuid4 e +:+ ".glb")) s'.
Proof.
  intros Hj Hd. unfold generate_from_url.
  destruct data as [d|]; [|by intros [= <- <-]].
  destruct (d !! "image_url") as [image_url|]; [|by intros [= <- <-]].
  cbv zeta. intros H Hs.
  apply finally_ok in H as (s3 & Hb & Hcl).
  apply try_except_ok in Hb as [Hb|(msg & s4 & Hb)];
    [|injection Hb as <- <-; done].
  apply bind_ok in Hb as (u & s1 & H1 & Hb).
  apply bind_ok in Hb as (? & s2 & H2 & Hb).
  apply bind_ok in Hb as (? & s5 & H5 & Hb).
  apply bind_ok in Hb as (fmt & s6 & H6 & Hb).
  set (image := Path.join UPLOAD_FOLDER (uuid4 e +:+ "." +:+ staged_ext u)) in *.
  assert (Hd1 : not_dir_at (Path.join OUTPUT_FOLDER (uuid4 e +:+ ".glb")) s1).
  { eapply keeps_run; [| |exact H1]; [|done]. unfold download_image. keeps_go. }
  assert (Hd2 : not_dir_at (Path.join OUTPUT_FOLDER (uuid4 e +:+ ".glb")) s2)
    by kept H2.
  assert (Hd5 : not_dir_at (Path.join OUTPUT_FOLDER (uuid4 e +:+ ".glb")) s5)
    by kept H5.
  assert (Hd6 : not_dir_at (Path.join OUTPUT_FOLDER (uuid4 e +:+ ".glb")) s6).
  { eapply keeps_run; [apply keeps_py_lower|done|exact H6]. }
  assert (Hl2 : local_is image s2) by (by injection H2 as _ <-).
  assert (Hl5 : local_is image s5) by kept H5.
  assert (Hl6 : local_is image s6).
  { eapply keeps_run; [apply keeps_py_lower|done|exact H6]. }
  assert (Hl3 : local_is image s3) by kept Hb.
  pose proof (generate_glb_written _ _ _ _ _ _ _ _ Hd6 Hb) as Hf.
  apply bind_ok in Hcl as (q & s7 & H7 & Hcl).
  unfold read_image_path in H7. rewrite Hl3 in H7. injection H7 as <- <-.
  pose proof (file_at_remove _ _ (staged_not_glb (uuid4 e)
    ("." +:+ staged_ext u) Hj)).
  eapply keeps_run; [|exact Hf|exact Hcl]. keeps_go.
Qed.

Lemma generate_glb_ok r e m :
  is_uuid (uuid4 e) = true →
  is_dir (m !! Path.join OUTPUT_FOLDER (uuid4 e +:+ ".glb")) = false →
  http_status (flask (generate r e (initial m)).1) = Some 200%nat →
  file_at (Path.join OUTPUT_FOLDER (uuid4 e +:+ ".glb")) (generate r e (initial m)).2.
Proof.
  intros Hj Hd Hs.
  destruct (generate r e (initial m)) as [[resp|[]] s'] eqn:Hrun;
    simpl in Hs; try done. injection Hs as Hs.
  destruct r as [req|data]; simpl in Hrun |- *.
  - by apply (upload_glb_ok req e m resp s' Hj Hd Hrun).
  - by apply (url_glb_ok data e m resp s' Hj Hd Hrun).
Qed.

(** X11. A generate request, through either route, that succeeds is
    followed by a working GLB download: with a uuid job id whose GLB path is
    not taken by a directory, the later [GET /api/download/{job_id}/glb]
    answers 200 with the job's GLB as the attachment [{job_id}.glb]. *)
Theorem glb_round_trip r e m :
  is_uuid (uuid4 e) = true →
  is_dir (m !! Path.join OUTPUT_FOLDER (uuid4 e +:+ ".glb")) = false →
  http_status (flask (generate r e (initial m)).1) = Some 200%nat →
  (download_model (uuid4 e) "glb" (initial (fs (generate r e (initial m)).2))).1
  = Ok {| status := 200;
          payload := Attachment (Path.join OUTPUT_FOLDER (uuid4 e +:+ ".glb"))
                       (uuid4 e +:+ ".glb") |}.
Proof.
  intros Hj Hd Hs. pose proof (generate_glb_ok r e m Hj Hd Hs) as Hf.
  rewrite download_glb. simpl. unfold file_at in Hf.
  by destruct (fs _ !! _) as [[]|].
Qed.

(** ** A finished job in the listing *)

Lemma dir_at_convert p glb out e : keeps (dir_at p) (convert_glb_to_obj glb out e).
Proof. unfold convert_glb_to_obj. keeps_go. Qed.

Lemma dir_at_generate p r e : keeps (dir_at p) (generate r e).
Proof.
  pose proof (dir_at_convert p). pose proof (dir_at_remove p).
  destruct r as [req|data]; simpl.
  - unfold generate_3d_model, generate_3d_model_job, generate_and_respond. keeps_go.
  - unfold generate_from_url, download_image, generate_and_respond. keeps_go.
Qed.

Lemma glb_listed (m : gmap string node) j :
  is_uuid j = true →
  is_Some (m !! Path.join OUTPUT_FOLDER (j +:+ ".glb")) →
  j +:+ ".glb" ∈ output_glbs m.
Proof.
  intros Hj [n Hn]. unfold output_glbs.
  apply list_elem_of_In, filter_In. split; [|apply endswith_app_self].
  apply list_elem_of_In, list_elem_of_omap.
  exists (Path.join OUTPUT_FOLDER (j +:+ ".glb")). split.
  - apply list_elem_of_fmap. exists (Path.join OUTPUT_FOLDER (j +:+ ".glb"), n).
    split; [done|]. by apply elem_of_map_to_list.
  - apply child_name_join.
    + rewrite contains_app. by rewrite (uuid_no_slash _ Hj).
    + destruct j; [done|]. by rewrite app_cons.
Qed.

(** X12. A generate request, through either route, that succeeds shows
    in the listing: with the output area in place, a uuid job id and its GLB
    path not taken by a directory, the later [GET /api/models] answers 200
    with, among its [total] entries, the JSON object of the job: its
    [job_id], the [glb_url] of its GLB download and, as [created_at], the
    creation time of the GLB the request left in the output area. *)
Theorem listed_after_generate r e m :
  is_uuid (uuid4 e) = true →
  is_dir (m !! OUTPUT_FOLDER) = true →
  is_dir (m !! Path.join OUTPUT_FOLDER (uuid4 e +:+ ".glb")) = false →
  http_status (flask (generate r e (initial m)).1) = Some 200%nat →
  ∃ models t,
    (list_models (initial (fs (generate r e (initial m)).2))).1
    = Ok (jsonify {[ "models" := PList models;
                     "total" := PInt (Z.of_nat (length models)) ]} 200)
    ∧ fs (generate r e (initial m)).2
        !! Path.join OUTPUT_FOLDER (uuid4 e +:+ ".glb") = Some (File t)
    ∧ PDict [("job_id", PStr (uuid4 e));
             ("glb_url", PStr ("/api/download/" +:+ uuid4 e +:+ "/glb"));
             ("created_at", PFloat t)] ∈ models.
Proof.
  intros Hj Ho Hd Hs.
  pose proof (generate_glb_ok r e m Hj Hd Hs) as Hf.
  pose proof (dir_at_generate OUTPUT_FOLDER r e (initial m) Ho) as Ho'.
  set (s' := (generate r e (initial m)).2) in *.
  unfold file_at in Hf.
  destruct (fs s' !! Path.join OUTPUT_FOLDER (uuid4 e +:+ ".glb"))
    as [[t|]|] eqn:Eg; try done.
  rewrite list_models_entries by exact Ho'. simpl.
  set (entries := sorted_desc snd _).
  exists ((λ x : string * Qc,
             listing_entry (Str.replace ".glb" "" x.1) x.2) <$> entries), t.
  split_and!; [by rewrite length_fmap|done|]. subst entries.
  apply list_elem_of_fmap. exists (uuid4 e +:+ ".glb", t). split.
  - simpl. rewrite replace_glb_suffix by by apply uuid_no_dot. done.
  - rewrite sorted_desc_perm. apply list_elem_of_fmap.
    exists (uuid4 e +:+ ".glb"). split; [by rewrite Eg|].
    apply glb_listed; [done|]. by rewrite Eg.
Qed.

(** ** The command-line script *)




(** ** What a request leaves alone *)

(** The [finally] block of the URL route, for an invariant that only the
    removal of [p] could break. *)
Lemma local_cleanup_keeps (I : state → Prop) p :
  (∀ q, q ≠ p → keeps I (os_remove q)) →
  keeps (λ s, I s ∧ local_sat (λ o, o ≠ Some p) s)
    (q ← read_image_path ; ex ← os_path_exists q ;
     if ex : bool then os_remove q else mret tt).
Proof.
  intros Hrm s [Hw Hl]. rewrite bind_run. unfold read_image_path.
  unfold local_sat in Hl. destruct (image_path s) as [q|] eqn:Eq;
    [|simpl; split; [done|]; unfold local_sat; by rewrite Eq].
  assert (Hq : q ≠ p) by congruence.
  assert (Hk : keeps (λ s, I s ∧ local_sat (λ o, o ≠ Some p) s)
            (ex ← os_path_exists q ; if ex : bool then os_remove q else mret tt)).
  { specialize (Hrm q Hq). apply keeps_and; keeps_go. }
  apply Hk. split; [done|]. unfold local_sat. by rewrite Eq.
Qed.

Lemma file_at_generate_route r e p :
  staging_path r e ≠ Some p →
  keeps (λ s, file_at p s ∧ local_sat (λ o, o ≠ Some p) s) (generate r e).
Proof.
  intros Hp. destruct r as [req|data]; simpl in *.
  - unfold generate_3d_model, generate_3d_model_job.
    destruct (files req !! "file") as [file|]; [|apply keeps_ret].
    simpl in Hp.
    assert (Hne : Path.join UPLOAD_FOLDER
      (uuid4 e +:+ "_" +:+ secure_filename (filename file)) ≠ p) by congruence.
    pose proof (file_at_remove p _ Hne). pose proof (local_sat_generate).
    apply keeps_and; keeps_go.
  - unfold generate_from_url.
    destruct data as [d|]; [|apply keeps_ret]. simpl in Hp.
    destruct (d !! "image_url") as [image_url|]; [|apply keeps_ret].
    cbv zeta. apply keeps_finally;
      [|apply local_cleanup_keeps; intros q Hq; by apply file_at_remove].
    apply keeps_try_except; [|intros; apply keeps_ret].
    eapply keeps_bind_yields; [|apply download_image_yields|].
    { unfold download_image. apply keeps_and; keeps_go. }
    intros u ->. simpl in Hp.
    assert (Hne : Path.join UPLOAD_FOLDER (uuid4 e +:+ "." +:+ staged_ext u) ≠ p)
      by congruence.
    pose proof (local_sat_generate).
    apply keeps_bind; [|intros _].
    { apply keeps_and; [apply file_at_assign|].
      intros [m' l ip] _. unfold local_sat. simpl. congruence. }
    apply keeps_and; keeps_go.
Qed.

(** X14. A generate request, through either route and however it ends,
    removes nothing but its own staged input: a directory that was there
    before the request is a directory afterwards, and a file that was there
    before, at any path other than the one the request stages its image at,
    is a file afterwards. *)
Theorem generate_removes_nothing_else r e m p :
  (is_dir (m !! p) = true → is_dir (fs (generate r e (initial m)).2 !! p) = true)
  ∧ (staging_path r e ≠ Some p → is_file (m !! p) = true →
     is_file (fs (generate r e (initial m)).2 !! p) = true).
Proof.
  split.
  - intros Hd. by apply (dir_at_generate p r e (initial m)).
  - intros Hp Hf.
    by apply (file_at_generate_route r e p Hp (initial m)).
Qed.

(** ** What a download sends *)

Lemma send_file_ok path name s resp s' :
  send_file path name s = (Ok resp, s') →
  resp = {| status := 200; payload := Attachment path name |} ∧ file_at path s.
Proof.
  unfold send_file, file_at. rewrite bind_run. simpl.
  destruct (fs s !! path) as [[]|]; [|done..]. by intros [= <- <-].
Qed.

(** X15. A download that answers 200 sends a file that exists, under the
    name [{job_id}.{format}]: for glb the job's GLB in the output area, for
    obj an entry of the job's subdirectory whose name ends in [.obj]; no
    other format is ever answered 200. *)
Theorem download_sends_existing_file job fmt s resp s' :
  download_model job fmt s = (Ok resp, s') →
  status resp = 200%nat →
  ∃ path,
    payload resp = Attachment path (job +:+ "." +:+ fmt)
    ∧ file_at path s
    ∧ (fmt = "glb" ∧ path = Path.join OUTPUT_FOLDER (job +:+ ".glb")
       ∨ fmt = "obj" ∧ ∃ f, Str.endswith ".obj" f = true
                        ∧ path = Path.join (Path.join OUTPUT_FOLDER job) f).
Proof.
  unfold download_model.
  destruct (bool_decide (fmt = "glb")) eqn:Eg;
    [|destruct (bool_decide (fmt = "obj")) eqn:Eo].
  - apply bool_decide_eq_true in Eg as ->. cbv zeta.
    intros ([] & s1 & H1 & H)%bind_ok Hs; [|by injection H as <- _].
    assert (s1 = s) as -> by by injection H1.
    apply send_file_ok in H as [-> Hf].
    exists (Path.join OUTPUT_FOLDER (job +:+ ".glb")). split_and!; [done..|].
    by left.
  - apply bool_decide_eq_true in Eo as ->. cbv zeta.
    intros ([] & s1 & H1 & H)%bind_ok Hs; [|by injection H as <- _].
    assert (s1 = s) as -> by by injection H1.
    apply bind_ok in H as (es & s2 & H2 & H).
    assert (s2 = s) as ->.
    { pose proof (keeps_listdir (λ s', s' = s)
                    (Path.join OUTPUT_FOLDER job) s eq_refl) as Hk.
      by rewrite H2 in Hk. }
    destruct (List.find _ es) as [f|] eqn:Ef; [|by injection H as <- _].
    apply find_some in Ef as [_ Ef].
    apply send_file_ok in H as [-> Hf].
    exists (Path.join (Path.join OUTPUT_FOLDER job) f). split_and!; [done..|].
    right. eauto.
  - by intros [= <- _].
Qed.

(** X16. An unknown job is a 404, whatever the format.  For a job id
    that is a plain name (not empty, without [/], and neither [.] nor [..],
    which name directories that always exist), when the output area holds
    neither [{job_id}.glb] nor an entry [{job_id}], every download for the
    job answers 404 "File not found" and changes nothing. *)
Theorem download_unknown_job job fmt s :
  job ≠ "" → Str.contains "/" job = false → job ≠ "." → job ≠ ".." →
  fs s !! Path.join OUTPUT_FOLDER (job +:+ ".glb") = None →
  fs s !! Path.join OUTPUT_FOLDER job = None →
  download_model job fmt s
  = (Ok (jsonify {[ "error" := PStr "File not found" ]} 404), s).
Proof.
  intros _ _ _ _ Hg Ho.
  destruct (decide (fmt = "glb")) as [->|Hn1];
    [by rewrite download_glb, Hg|].
  destruct (decide (fmt = "obj")) as [->|Hn2];
    [by apply download_obj_absent|].
  by apply download_other.
Qed.

(** ** The listing and the output area *)

(** X17. The listing answers exactly when the output area is a directory:
    then it answers 200, and when the output area is missing or is a file
    [os.listdir] raises and the view with it. *)
Theorem listing_answers_iff_output_area s :
  (∃ resp, (list_models s).1 = Ok resp ∧ status resp = 200%nat)
  ↔ is_dir (fs s !! OUTPUT_FOLDER) = true.
Proof.
  split.
  - intros (resp & H & _). unfold list_models, os_listdir in H.
    rewrite !bind_run in H. simpl in H.
    by destruct (fs s !! OUTPUT_FOLDER) as [[]|].
  - intros Hd. rewrite (list_models_entries s Hd). eauto.
Qed.

(** X18. Once the folders have been created at start-up the listing keeps
    answering: after [create_folders] has returned, a listing answers 200,
    and so does a listing after any generate request, however that request
    ended. *)
Theorem listing_answers_after_startup t m s0 r e :
  create_folders t (initial m) = (Ok tt, s0) →
  (∃ resp, (list_models (initial (fs s0))).1 = Ok resp ∧ status resp = 200%nat)
  ∧ (∃ resp, (list_models (initial (fs (generate r e (initial (fs s0))).2))).1
             = Ok resp ∧ status resp = 200%nat).
Proof.
  unfold create_folders. intros (? & s1 & _ & H)%bind_ok.
  apply makedirs_ok in H.
  assert (Hd : dir_at OUTPUT_FOLDER (initial (fs s0))) by done.
  split.
  - rewrite (list_models_entries _ Hd). eauto.
  - pose proof (dir_at_generate OUTPUT_FOLDER r e _ Hd) as Hd'.
    rewrite (list_models_entries (initial _) Hd'). eauto.
Qed.
End Service.

(** * The claims on the sample world *)

Local Abbreviation srv_generate :=
  (generate "/srv" int_of_digits float_of_digits plain_filename).
Local Abbreviation sample_staged :=
  "/srv/uploads/123e4567-e89b-42d3-a456-426614174000_cat.PNG".
Local Abbreviation sample_url := "http://img.example/cat.webp?size=2".

Local Ltac in_list :=
  repeat first [apply list_elem_of_here | apply list_elem_of_further].

(** C2 on the sample upload: the image is staged and gone afterwards. *)
Lemma C2_staged_input_removed_witness :
  staged_at "/srv" plain_filename (PostGenerate sample_upload) sample_env sample_fs
    = Some sample_staged
  ∧ Wrote sample_staged
      ∈ log (srv_generate (PostGenerate sample_upload) sample_env (initial sample_fs)).2
  ∧ fs (srv_generate (PostGenerate sample_upload) sample_env (initial sample_fs)).2
      !! sample_staged = None.
Proof.
  split; [vm_compute; reflexivity|].
  apply C2_staged_input_removed. vm_compute. reflexivity.
Defined.

(** C3 on an unreachable host: the view raises instead of answering. *)
Lemma C3_download_failure_escapes_witness :
  flask (generate_from_url "/srv" (Some sample_body) offline_env (initial sample_fs)).1
    = InternalServerError
  ∧ json_of
      (flask (generate_from_url "/srv" (Some sample_body) offline_env
                (initial sample_fs)).1) = None.
Proof.
  destruct (C3_download_failure_escapes "/srv" sample_body sample_url offline_env
              sample_fs "ConnectionError" "Failed to resolve host")
    as (_ & H1 & H2 & _); [reflexivity..|].
  split; [exact H1|exact H2].
Defined.

(** C4 on the GLB of a finished job taken for a job id. *)
Lemma C4_obj_of_a_file_raises_witness :
  listing_fs !! "/srv/output/aaaa.glb" = Some (File (Q2Qc 3))
  ∧ http_status (flask (download_model "/srv" "aaaa.glb" "obj" (initial listing_fs)).1)
    = Some 500%nat.
Proof.
  split; [vm_compute; reflexivity|].
  apply (C4_obj_of_a_file_raises "/srv" "aaaa.glb" listing_fs (Q2Qc 3)).
  vm_compute. reflexivity.
Defined.

(** C5 on two finished jobs: the newer one comes first. *)
Lemma C5_list_models_witness :
  (∃ entries : list (string * Qc),
     list_models "/srv" (initial listing_fs)
     = (Ok (jsonify
          {[ "models" := PList
               ((λ x, listing_entry (Str.replace ".glb" "" x.1) x.2) <$> entries);
             "total" := PInt (Z.of_nat (length entries)) ]} 200),
        initial listing_fs)
     ∧ entries.*1 ≡ₚ output_glbs "/srv" listing_fs
     ∧ Forall (λ x, ∃ n, listing_fs !! Path.join (OUTPUT_FOLDER "/srv") x.1 = Some n
                         ∧ x.2 = node_ctime n) entries
     ∧ (∀ j c, (j +:+ ".glb", c) ∈ entries → Str.contains "." j = false →
          listing_entry j c
          ∈ (λ x, listing_entry (Str.replace ".glb" "" x.1) x.2) <$> entries)
     ∧ StronglySorted (λ a b, (b.2 ≤ a.2)%Qc) entries
     ∧ ∀ i j x y, entries !! i = Some x → entries !! j = Some y →
         (x.2 < y.2)%Qc → (j < i)%nat)
  ∧ (list_models "/srv" (initial listing_fs)).1
    = Ok (jsonify
        {[ "models" := PList
             [PDict [("job_id", PStr "bbbb");
                     ("glb_url", PStr "/api/download/bbbb/glb");
                     ("created_at", PFloat (Q2Qc 5))];
              PDict [("job_id", PStr "aaaa");
                     ("glb_url", PStr "/api/download/aaaa/glb");
                     ("created_at", PFloat (Q2Qc 3))]];
           "total" := PInt 2 ]} 200).
Proof.
  split.
  - apply (C5_list_models "/srv" listing_fs (Q2Qc 1)). vm_compute. reflexivity.
  - vm_compute. reflexivity.
Defined.

(** C6 on the sample upload, which asks for OBJ. *)
Lemma C6_obj_request_witness :
  json_of (flask (srv_generate (PostGenerate sample_upload) sample_env
                    (initial sample_fs)).1)
  = Some {[ "job_id" := PStr "123e4567-e89b-42d3-a456-426614174000";
            "status" := PStr "completed";
            "glb_url" :=
              PStr "/api/download/123e4567-e89b-42d3-a456-426614174000/glb";
            "obj_url" :=
              PStr "/api/download/123e4567-e89b-42d3-a456-426614174000/obj" ]}
  ∧ ∃ view f,
      route_get "/srv" "/api/download/123e4567-e89b-42d3-a456-426614174000/obj"
      = Some view
      ∧ Str.endswith ".obj" f = true
      ∧ (view (srv_generate (PostGenerate sample_upload) sample_env
                 (initial sample_fs)).2).1
        = Ok {| status := 200;
                payload := Attachment
                  (Path.join (Path.join (OUTPUT_FOLDER "/srv") sample_job) f)
                  (sample_job +:+ ".obj") |}.
Proof.
  destruct (C6_obj_request "/srv" int_of_digits float_of_digits plain_filename
              (PostGenerate sample_upload) sample_env sample_fs)
    as (H1 & _ & H3).
  - vm_compute. reflexivity.
  - refine (bool_decide_unpack _ _). vm_compute. exact I.
  - vm_compute. reflexivity.
  - vm_compute. reflexivity.
  - split; [|exact H3]. rewrite H1. vm_compute. reflexivity.
Defined.

(** C7 on the sample upload: [steps] arrives as the integer 50. *)
Lemma C7_parameters_forwarded_witness :
  RemoteCall sample_staged sample_args
    ∈ log (srv_generate (PostGenerate sample_upload) sample_env (initial sample_fs)).2
  ∧ forwarded int_of_digits float_of_digits (PostGenerate sample_upload) sample_args.
Proof.
  assert (H : RemoteCall sample_staged sample_args
    ∈ log (srv_generate (PostGenerate sample_upload) sample_env (initial sample_fs)).2).
  { vm_compute. in_list. }
  split; [exact H|]. exact (C7_parameters_forwarded _ _ _ _ _ _ _ _ _ H).
Defined.

(** C8, as the specification words it, fails on the sample upload: its form
    asks for an octree resolution of 512 and the remote model is called with
    256. *)
Lemma C8_octree_resolution_not_forwarded :
  ¬ upload_exposes "/srv" int_of_digits float_of_digits plain_filename
      "octree_resolution" octree_resolution.
Proof.
  intros H.
  specialize (H sample_upload sample_env sample_fs "512" 512 sample_staged sample_args).
  assert (E : octree_resolution sample_args = PInt 512).
  { apply H; [vm_compute; reflexivity..|]. vm_compute. in_list. }
  discriminate E.
Qed.


(** C10 on an upload asking for stl. *)
Lemma C10_other_formats_are_glb_witness :
  Forall conversion_free
    (log (srv_generate (PostGenerate stl_upload) sample_env (initial sample_fs)).2)
  ∧ srv_generate (PostGenerate stl_upload) sample_env (initial sample_fs)
    = srv_generate (with_format "glb" (PostGenerate stl_upload)) sample_env
        (initial sample_fs).
Proof.
  destruct (C10_other_formats_are_glb "/srv" int_of_digits float_of_digits
              plain_filename (PostGenerate stl_upload) sample_env sample_fs "stl")
    as (H1 & _ & H3); [vm_compute; reflexivity|discriminate|].
  split; [exact H1|exact H3].
Defined.

(** * More of the service on the sample world *)

Local Abbreviation plain_staged :=
  "/srv/uploads/123e4567-e89b-42d3-a456-426614174000_cat.png".
Local Abbreviation sample_glb :=
  "/srv/output/123e4567-e89b-42d3-a456-426614174000.glb".

(** X1 on [cat.PNG]. *)
Lemma allowed_file_last_extension_witness :
  allowed_file ("cat" +:+ "." +:+ "PNG")
  = bool_decide (Str.lower "PNG" ∈ ALLOWED_EXTENSIONS).
Proof. apply (allowed_file_last_extension "cat" "PNG"). reflexivity. Defined.

(** X2 on the sample URL. *)
Lemma staged_ext_strips_query_witness :
  staged_ext ("http://img.example/cat" +:+ "." +:+ "webp" +:+ "?" +:+ "size=2")
  = "webp".
Proof.
  apply (staged_ext_strips_query "http://img.example/cat" "webp" "size=2").
  - refine (bool_decide_unpack _ _). vm_compute. exact I.
  - reflexivity.
Defined.

(** X5 on the GLB of a finished job. *)
Lemma convert_exports_obj_witness :
  "/srv/output/aaaa/aaaa.obj"
  = Path.join (Path.join "/srv/output"
                 (Path.splitext (Path.basename "/srv/output/aaaa.glb")).1)
      ((Path.splitext (Path.basename "/srv/output/aaaa.glb")).1 +:+ ".obj")
  ∧ dir_at (Path.join "/srv/output"
              (Path.splitext (Path.basename "/srv/output/aaaa.glb")).1)
      (convert_glb_to_obj "/srv/output/aaaa.glb" "/srv/output" sample_env
         (initial listing_fs)).2
  ∧ file_at "/srv/output/aaaa/aaaa.obj"
      (convert_glb_to_obj "/srv/output/aaaa.glb" "/srv/output" sample_env
         (initial listing_fs)).2
  ∧ file_at "/srv/output/aaaa.glb"
      (convert_glb_to_obj "/srv/output/aaaa.glb" "/srv/output" sample_env
         (initial listing_fs)).2.
Proof.
  apply (convert_exports_obj "/srv/output/aaaa.glb" "/srv/output" sample_env
           (initial listing_fs)).
  vm_compute. reflexivity.
Defined.

(** X6 with the remote model overloaded: the upload is answered. *)
Lemma exceptions_answered_once_staged_witness :
  match (srv_generate (PostGenerate plain_upload) overloaded_env
           (initial sample_fs)).1 with
  | Ok resp =>
      status resp = 200%nat
      ∨ ∃ msg, resp = failure_answer (PostGenerate plain_upload) msg
  | Raise (Exception _ _) => False
  | Raise (BaseException _ _) => True
  end.
Proof.
  apply (exceptions_answered_once_staged "/srv" int_of_digits float_of_digits
           plain_filename (PostGenerate plain_upload) overloaded_env sample_fs
           plain_staged).
  vm_compute. reflexivity.
Defined.

(** X7 on an upload with [steps=abc]. *)
Lemma upload_bad_number_witness :
  ∃ msg,
    (generate_3d_model "/srv" int_of_digits float_of_digits plain_filename
       bad_steps_upload sample_env (initial sample_fs)).1
    = Ok (failure_answer (PostGenerate bad_steps_upload) msg)
    ∧ log (generate_3d_model "/srv" int_of_digits float_of_digits plain_filename
             bad_steps_upload sample_env (initial sample_fs)).2
      = [Wrote plain_staged].
Proof.
  apply (upload_bad_number "/srv" int_of_digits float_of_digits plain_filename
           bad_steps_upload sample_env sample_fs plain_staged).
  - vm_compute. reflexivity.
  - left. exists "abc". split; reflexivity.
Defined.

(** X8 with the remote model overloaded. *)
Lemma upload_remote_failure_witness :
  generate_3d_model "/srv" int_of_digits float_of_digits plain_filename
    plain_upload overloaded_env (initial sample_fs)
  = (Ok (failure_answer (PostGenerate plain_upload) "The Space is overloaded"),
     {| fs := sample_fs;
        log := [Wrote plain_staged;
                RemoteCall plain_staged (predict_args_of default_params)];
        image_path := None |}).
Proof.
  apply (upload_remote_failure "/srv" int_of_digits float_of_digits plain_filename
           plain_upload overloaded_env sample_fs plain_staged default_params
           "AppError" "The Space is overloaded").
  - vm_compute. reflexivity.
  - vm_compute. reflexivity.
  - vm_compute. reflexivity.
  - reflexivity.
Defined.

(** X10 on the sample upload: the GLB it copied is in the output area. *)
Lemma written_files_persist_witness :
  is_file
    (fs (srv_generate (PostGenerate sample_upload) sample_env (initial sample_fs)).2
       !! sample_glb) = true.
Proof.
  apply (written_files_persist "/srv" int_of_digits float_of_digits plain_filename
           (PostGenerate sample_upload) sample_env sample_fs sample_glb).
  - vm_compute. discriminate.
  - vm_compute. in_list.
Defined.

(** X11 on the sample upload. *)
Lemma glb_round_trip_witness :
  (download_model "/srv" (uuid4 sample_env) "glb"
     (initial (fs (srv_generate (PostGenerate sample_upload) sample_env
                     (initial sample_fs)).2))).1
  = Ok {| status := 200;
          payload := Attachment
            (Path.join (OUTPUT_FOLDER "/srv") (uuid4 sample_env +:+ ".glb"))
            (uuid4 sample_env +:+ ".glb") |}.
Proof.
  apply (glb_round_trip "/srv" int_of_digits float_of_digits plain_filename
           (PostGenerate sample_upload) sample_env sample_fs).
  - vm_compute. reflexivity.
  - vm_compute. reflexivity.
  - vm_compute. reflexivity.
Defined.

(** X12 on the sample URL, beside two finished jobs. *)
Lemma listed_after_generate_witness :
  ∃ models t,
    (list_models "/srv"
       (initial (fs (srv_generate (PostGenerateUrl (Some sample_body)) sample_env
                       (initial listing_fs)).2))).1
    = Ok (jsonify {[ "models" := PList models;
                     "total" := PInt (Z.of_nat (length models)) ]} 200)
    ∧ fs (srv_generate (PostGenerateUrl (Some sample_body)) sample_env
            (initial listing_fs)).2
        !! Path.join (OUTPUT_FOLDER "/srv") (uuid4 sample_env +:+ ".glb")
      = Some (File t)
    ∧ PDict [("job_id", PStr (uuid4 sample_env));
             ("glb_url", PStr ("/api/download/" +:+ uuid4 sample_env +:+ "/glb"));
             ("created_at", PFloat t)] ∈ models.
Proof.
  apply (listed_after_generate "/srv" int_of_digits float_of_digits plain_filename
           (PostGenerateUrl (Some sample_body)) sample_env listing_fs).
  - vm_compute. reflexivity.
  - vm_compute. reflexivity.
  - vm_compute. reflexivity.
  - vm_compute. reflexivity.
Defined.


(** X14 on the sample upload, beside two finished jobs: the output area and
    the GLB of an older job are still there. *)
Lemma generate_removes_nothing_else_witness :
  is_dir
    (fs (srv_generate (PostGenerate sample_upload) sample_env (initial listing_fs)).2
       !! "/srv/output") = true
  ∧ is_file
      (fs (srv_generate (PostGenerate sample_upload) sample_env (initial listing_fs)).2
         !! "/srv/output/aaaa.glb") = true.
Proof.
  split.
  - apply (generate_removes_nothing_else "/srv" int_of_digits float_of_digits
             plain_filename (PostGenerate sample_upload) sample_env listing_fs
             "/srv/output").
    vm_compute. reflexivity.
  - apply (generate_removes_nothing_else "/srv" int_of_digits float_of_digits
             plain_filename (PostGenerate sample_upload) sample_env listing_fs
             "/srv/output/aaaa.glb").
    + vm_compute. discriminate.
    + vm_compute. reflexivity.
Defined.

(** X15 on the GLB of a finished job. *)
Lemma download_sends_existing_file_witness :
  ∃ path,
    payload {| status := 200;
               payload := Attachment "/srv/output/aaaa.glb" "aaaa.glb" |}
    = Attachment path ("aaaa" +:+ "." +:+ "glb")
    ∧ file_at path (initial listing_fs)
    ∧ ("glb" = "glb" ∧ path = Path.join (OUTPUT_FOLDER "/srv") ("aaaa" +:+ ".glb")
       ∨ "glb" = "obj"
         ∧ ∃ f, Str.endswith ".obj" f = true
              ∧ path = Path.join (Path.join (OUTPUT_FOLDER "/srv") "aaaa") f).
Proof.
  apply (download_sends_existing_file "/srv" "aaaa" "glb" (initial listing_fs)
           {| status := 200;
              payload := Attachment "/srv/output/aaaa.glb" "aaaa.glb" |}
           (initial listing_fs)).
  - vm_compute. reflexivity.
  - reflexivity.
Defined.

(** X16 on a job id nobody has. *)
Lemma download_unknown_job_witness :
  download_model "/srv" "cccc" "obj" (initial listing_fs)
  = (Ok (jsonify {[ "error" := PStr "File not found" ]} 404), initial listing_fs).
Proof.
  apply (download_unknown_job "/srv" "cccc" "obj" (initial listing_fs)).
  - discriminate.
  - reflexivity.
  - discriminate.
  - discriminate.
  - vm_compute. reflexivity.
  - vm_compute. reflexivity.
Defined.

(** X18 on an empty disk, with the sample upload as the request. *)
Lemma listing_answers_after_startup_witness :
  (∃ resp,
     (list_models "/srv"
        (initial (fs (create_folders "/srv" (Q2Qc 1) (initial ∅)).2))).1 = Ok resp
     ∧ status resp = 200%nat)
  ∧ (∃ resp,
       (list_models "/srv"
          (initial (fs (srv_generate (PostGenerate sample_upload) sample_env
             (initial (fs (create_folders "/srv" (Q2Qc 1) (initial ∅)).2))).2))).1
       = Ok resp
       ∧ status resp = 200%nat).
Proof.
  apply (listing_answers_after_startup "/srv" int_of_digits float_of_digits
           plain_filename (Q2Qc 1) ∅
           (create_folders "/srv" (Q2Qc 1) (initial ∅)).2
           (PostGenerate sample_upload) sample_env).
  vm_compute. reflexivity.
Defined.
